(** * The storage stage of ignition: a shallow embedding and its properties

    The embedding follows [src/exec/storage.go] (the [storage] struct),
    [src/exec/stages/storage/storage.go] (the [stage] struct) and the unit
    helpers of package [util].

    The Go code is a sequence of calls to collaborators (the device waiter,
    sgdisk, external commands, mount/unmount, the file writer, the logger).
    It is embedded as a computation in a small monad: a computation reads the
    history of what has happened so far, and returns a value together with
    the steps it performed.  The answers of the collaborators come from an
    environment, a function of the history and of the call, so that every
    theorem holds whatever the operating system answers. *)

From Stdlib Require Import List String Ascii ZArith Lia Bool.
From Stdlib Require Import DecimalString.
Import ListNotations.
Local Open Scope string_scope.
Local Open Scope list_scope.
Local Open Scope Z_scope.

(** ** Configuration (package [config]) *)

Module Partition.
Record t := mk
  { Label : string; Number : Z; Size : Z; Start : Z; TypeGUID : string }.
End Partition.

Module Disk.
Record t := mk
  { Device : string; WipeTable : bool; Partitions : list Partition.t }.
End Disk.

Module Raid.
Record t := mk
  { Name : string; Level : string; Devices : list string; Spares : Z }.
End Raid.

Module File.
Record t := mk
  { Path : string; Contents : string; Mode : Z; Uid : Z; Gid : Z }.
End File.

Module Filesystem.
Record t := mk
  { Device : string; Format : string; Initialize : bool;
    Options : list string; Files : list File.t }.
End Filesystem.

Module SystemdUnitDropIn.
Record t := mk { Name : string; Contents : string }.
End SystemdUnitDropIn.

Module SystemdUnit.
Record t := mk
  { Name : string; Enable : bool; Mask : bool; Contents : string;
    DropIns : list SystemdUnitDropIn.t }.
End SystemdUnit.

Module NetworkdUnit.
Record t := mk { Name : string; Contents : string }.
End NetworkdUnit.

Module Storage.
Record t := mk
  { Disks : list Disk.t; Arrays : list Raid.t;
    Filesystems : list Filesystem.t }.
End Storage.

Module Config.
Record t := mk
  { Storage : Storage.t;
    SystemdUnits : list SystemdUnit.t;     (* config.Systemd.Units *)
    NetworkdUnits : list NetworkdUnit.t }. (* config.Networkd.Units *)
End Config.

(** ** Go values *)

(** Go's [int] and [uint64] on the 64-bit targets ignition is built for. *)
Definition int_wrap (z : Z) : Z := (z + 2 ^ 63) mod 2 ^ 64 - 2 ^ 63.
Definition int_sub (a b : Z) : Z := int_wrap (a - b).
Definition uint64 (z : Z) : Z := z mod 2 ^ 64.

(** [len] of a slice. *)
Definition len {A} (l : list A) : Z := Z.of_nat (List.length l).

(** [fmt.Sprintf("%d", n)]. *)
Definition Sprintf_d (n : Z) : string := NilZero.string_of_int (Z.to_int n).

(** An [error] value.  [Errno] is an error returned by a collaborator;
    [Errorf] is a call of [fmt.Errorf] with its format string and operands
    (the text it would render is not computed). *)
Inductive error :=
| Errno (msg : string)
| Errorf (format : string) (operands : list operand)
with operand :=
| AStr (s : string)
| AStrs (l : list string)
| AErr (e : error).

(** ** Steps: what the code asks of its collaborators *)

(** The partition description handed to sgdisk ([sgdisk.Partition]). *)
Module sgdisk.
Record Partition := mkPartition
  { Number : Z; Length : Z; Offset : Z; Label : string; TypeGUID : string }.
End sgdisk.

(** Calls that report success or failure. *)
Inductive call :=
| WaitOnDevices (devs : list string) (ctxt : string) (* systemd.WaitOnDevices *)
| Commit (dev : string)                              (* sgdisk op.Commit *)
| Command (path : string) (args : list string)       (* exec.Command, run by LogCmd *)
| TempDir (dir prefix : string)                      (* ioutil.TempDir *)
| Remove (path : string)                             (* os.Remove *)
| Mount (source target fstype : string) (flags : Z) (data : string)
| Unmount (target : string) (flags : Z)
| WriteFile (dest : string) (f : File.t)             (* DestDir.WriteFile *)
| MkdirForFile (path : string)
| OpenFile (path : string) (flag : Z) (perm : Z)
| WriteString (path : string) (s : string)
| Close (path : string)
| Symlink (oldname newname : string).

(** Operations that return nothing to look at. *)
Inductive action :=
| PushPrefix (prefix : string)
| PopPrefix
| Info (format : string) (operands : list operand)
| Crit (format : string) (operands : list operand)
| Begin (dev : string)                               (* sgdisk.Begin *)
| WipeTable (dev : string) (wipe : bool)             (* op.WipeTable *)
| CreatePartition (dev : string) (p : sgdisk.Partition).

(** The answer to a call: success, with the string returned if any (the
    directory name for [TempDir]), or failure with the reason. *)
Inductive result :=
| Ok (value : string)
| Fail (msg : string).

Inductive step :=
| Act (a : action)
| Did (c : call) (r : result).

Definition history := list step.

(** The environment: how the system answers a call, given all that happened
    before it. *)
Definition Env := history -> call -> result.

(** ** The monad *)

Definition M (A : Type) : Type := history -> A * list step.

Definition ret {A} (a : A) : M A := fun _ => (a, []).

Definition bind {A B} (m : M A) (f : A -> M B) : M B :=
  fun h =>
    let (a, s1) := m h in
    let (b, s2) := f a (h ++ s1) in
    (b, s1 ++ s2).

Declare Scope go_scope.
Delimit Scope go_scope with go.
Notation "x <- m ;; k" := (bind m (fun x => k))
  (at level 61, m at next level, right associativity) : go_scope.
Notation "m ;; k" := (bind m (fun _ => k))
  (at level 61, right associativity) : go_scope.
Local Open Scope go_scope.

Definition act (a : action) : M unit := fun _ => (tt, [Act a]).

Definition invoke (env : Env) (c : call) : M result :=
  fun h => let r := env h c in (r, [Did c r]).

(** The [error] a call returns: [nil] is [None]. *)
Definition err_of (r : result) : option error :=
  match r with
  | Ok _ => None
  | Fail msg => Some (Errno msg)
  end.

(** [defer cleanup] placed before [body]: the cleanup runs when the
    function returns, whatever [body] returns, and its own result is
    dropped. *)
Definition defer {A B} (cleanup : M B) (body : M A) : M A :=
  a <- body ;; cleanup ;; ret a.

(** [for _, x := range l { if err := f(x); err != nil { return err } }]:
    the loop stops at the first element whose body returns an error. *)
Fixpoint range_err {A} (l : list A) (f : A -> M (option error))
  : M (option error) :=
  match l with
  | [] => ret None
  | x :: l' =>
      e <- f x ;;
      match e with
      | Some err => ret (Some err)
      | None => range_err l' f
      end
  end.

(** [for _, x := range l { f(x) }] with a body that cannot leave the loop. *)
Fixpoint range_do {A} (l : list A) (f : A -> M unit) : M unit :=
  match l with
  | [] => ret tt
  | x :: l' => f x ;; range_do l' f
  end.

(** [for _, x := range l { acc = append(acc, g(x)...) }]. *)
Definition range_append {A B} (l : list A) (g : A -> list B) (acc : list B)
  : list B :=
  fold_left (fun acc x => acc ++ g x) l acc.

(** The logger's [LogOp] runs the operation and hands back its error; what it
    writes to the log around the operation is not part of the model. *)
Definition LogOp (op : M (option error)) : M (option error) := op.

(** The logger's [LogCmd] runs the command and hands back its error. *)
Definition LogCmd (env : Env) (path : string) (args : list string)
  : M (option error) :=
  r <- invoke env (Command path args) ;; ret (err_of r).

(** [if err := m; err != nil { return wrap(err) }] followed by [k]. *)
Definition check (m : M (option error)) (wrap : error -> error)
  (k : M (option error)) : M (option error) :=
  e <- m ;;
  match e with
  | Some err => ret (Some (wrap err))
  | None => k
  end.

(** ** Package [util]: the unit helpers *)

Module util.

(** What the helpers use from the rest of the package and from Go's
    library, whose source is not part of the files at hand: they are
    parameters of the development. *)
Record Decls := mkDecls
  { SystemdUnitsPath : string;
    NetworkdUnitsPath : string;
    SystemdDropinsPath : string -> string;
    DefaultFilePermissions : Z;
    filepath_Join : list string -> string;
    JoinPath : string -> list string -> string }.

Definition presetPath : string :=
  "/etc/systemd/system-preset/20-ignition.preset".
(** [0644], octal. *)
Definition DefaultPresetPermissions : Z := 6 * 64 + 4 * 8 + 4.

(** [os.O_RDWR], [os.O_APPEND], [os.O_CREATE] on Linux. *)
Definition O_RDWR : Z := 0x2.
Definition O_APPEND : Z := 0x400.
Definition O_CREATE : Z := 0x40.

Definition newline : string := String (ascii_of_nat 10) EmptyString.

(** [fmt.Sprintf("enable %s\n", name)]. *)
Definition Sprintf_enable (name : string) : string :=
  String.append "enable " (String.append name newline).

Section Helpers.
Variable D : Decls.
Variable env : Env.

Definition FileFromSystemdUnit (unit : SystemdUnit.t) : File.t :=
  {| File.Path := filepath_Join D [SystemdUnitsPath D; SystemdUnit.Name unit];
     File.Contents := SystemdUnit.Contents unit;
     File.Mode := DefaultFilePermissions D;
     File.Uid := 0;
     File.Gid := 0 |}.

Definition FileFromNetworkdUnit (unit : NetworkdUnit.t) : File.t :=
  {| File.Path := filepath_Join D [NetworkdUnitsPath D; NetworkdUnit.Name unit];
     File.Contents := NetworkdUnit.Contents unit;
     File.Mode := DefaultFilePermissions D;
     File.Uid := 0;
     File.Gid := 0 |}.

Definition FileFromUnitDropin (unit : SystemdUnit.t)
  (dropin : SystemdUnitDropIn.t) : File.t :=
  {| File.Path :=
       filepath_Join D [SystemdDropinsPath D (SystemdUnit.Name unit);
                        SystemdUnitDropIn.Name dropin];
     File.Contents := SystemdUnitDropIn.Contents dropin;
     File.Mode := DefaultFilePermissions D;
     File.Uid := 0;
     File.Gid := 0 |}.

Definition mkdirForFile (path : string) : M (option error) :=
  r <- invoke env (MkdirForFile path) ;; ret (err_of r).

Definition MaskUnit (d : string) (unit : SystemdUnit.t) : M (option error) :=
  let path := JoinPath D d [SystemdUnitsPath D; SystemdUnit.Name unit] in
  check (mkdirForFile path) (fun err => err)
    (r <- invoke env (Symlink "/dev/null" path) ;; ret (err_of r)).

Definition EnableUnit (d : string) (unit : SystemdUnit.t) : M (option error) :=
  let path := JoinPath D d [presetPath] in
  check (mkdirForFile path) (fun err => err)
    (r <- invoke env
            (OpenFile path (Z.lor (Z.lor O_RDWR O_APPEND) O_CREATE)
               DefaultPresetPermissions) ;;
     match err_of r with
     | Some err => ret (Some err)
     | None =>
         defer (invoke env (Close path))
           (r <- invoke env
                   (WriteString path
                      (Sprintf_enable (SystemdUnit.Name unit))) ;;
            ret (err_of r))
     end).

(** [d.WriteFile(f)], the file-write primitive. *)
Definition WriteFile (d : string) (f : File.t) : M (option error) :=
  r <- invoke env (WriteFile d f) ;; ret (err_of r).

End Helpers.
End util.

(** ** [src/exec/storage.go]: the [storage] struct *)

Module Exec.
Section Storage.
Variable D : util.Decls.
Variable env : Env.
(** [s.DestDir], the root the units are written under. *)
Variable DestDir : string.

(** [storage.waitOnDevices]. *)
Definition waitOnDevices (devs : list string) (ctxt : string)
  : M (option error) :=
  check (LogOp (r <- invoke env (WaitOnDevices devs ctxt) ;; ret (err_of r)))
    (fun err => Errorf "failed to wait on %s devs: %v" [AStr ctxt; AErr err])
    (ret None).

(** The body of the operation logged as "partitioning" for one disk. *)
Definition partitionDisk (dev : Disk.t) : M (option error) :=
  act (Begin (Disk.Device dev)) ;;
  (if Disk.WipeTable dev
   then act (Info "wiping partition table requested on %q"
               [AStr (Disk.Device dev)]) ;;
        act (WipeTable (Disk.Device dev) true)
   else ret tt) ;;
  range_do (Disk.Partitions dev)
    (fun part =>
       act (CreatePartition (Disk.Device dev)
              {| sgdisk.Number := Partition.Number part;
                 sgdisk.Length := uint64 (Partition.Size part);
                 sgdisk.Offset := uint64 (Partition.Start part);
                 sgdisk.Label := Partition.Label part;
                 sgdisk.TypeGUID := Partition.TypeGUID part |})) ;;
  check (r <- invoke env (Commit (Disk.Device dev)) ;; ret (err_of r))
    (fun err => Errorf "commit failure: %v" [AErr err])
    (ret None).

(** [storage.createPartitions]. *)
Definition createPartitions (config : Config.t) : M (option error) :=
  let disks := Storage.Disks (Config.Storage config) in
  if len disks =? 0 then ret None
  else
    act (PushPrefix "createPartitions") ;;
    defer (act PopPrefix)
      (let devs := range_append disks (fun disk => [Disk.Device disk]) [] in
       check (waitOnDevices devs "disks") (fun err => err)
         (range_err disks
            (fun dev => check (LogOp (partitionDisk dev)) (fun err => err)
                          (ret None)))).

(** The argument list of [/sbin/mdadm] for one array. *)
Definition mdadmArgs (md : Raid.t) : list string :=
  let args :=
    [ "--create"; Raid.Name md;
      "--force";
      "--run";
      "--level"; Raid.Level md;
      "--raid-devices";
      Sprintf_d (int_sub (len (Raid.Devices md)) (Raid.Spares md)) ] in
  let args :=
    if Raid.Spares md >? 0
    then args ++ ["--spare-devices"; Sprintf_d (Raid.Spares md)]
    else args in
  range_append (Raid.Devices md) (fun dev => [dev]) args.

(** [storage.createRaids]. *)
Definition createRaids (config : Config.t) : M (option error) :=
  let arrays := Storage.Arrays (Config.Storage config) in
  if len arrays =? 0 then ret None
  else
    act (PushPrefix "createRaids") ;;
    defer (act PopPrefix)
      (let devs := range_append arrays (fun array => Raid.Devices array) [] in
       check (waitOnDevices devs "raids") (fun err => err)
         (range_err arrays
            (fun md =>
               check (LogCmd env "/sbin/mdadm" (mdadmArgs md))
                 (fun err => Errorf "mdadm failed: %v" [AErr err])
                 (ret None)))).

(** The loop of [createFiles] over [fs.Files], writing under [dest]. *)
Definition writeFiles (dest : string) (files : list File.t)
  : M (option error) :=
  range_err files
    (fun f =>
       check (LogOp (util.WriteFile env dest f))
         (fun err => Errorf "failed to create file %q: %v"
                       [AStr (File.Path f); AErr err])
         (ret None)).

(** [storage.createFiles]. *)
Definition createFiles (fs : Filesystem.t) : M (option error) :=
  if len (Filesystem.Files fs) =? 0 then ret None
  else
    act (PushPrefix "createFiles") ;;
    defer (act PopPrefix)
      (r <- invoke env (TempDir "" "ignition-files") ;;
       match r with
       | Fail msg =>
           ret (Some (Errorf "failed to create temp directory: %v"
                        [AErr (Errno msg)]))
       | Ok mnt =>
           defer (invoke env (Remove mnt))
             (let dev := Filesystem.Device fs in
              let format := Filesystem.Format fs in
              check (LogOp (r <- invoke env (Mount dev mnt format 0 "") ;;
                            ret (err_of r)))
                (fun err => Errorf "failed to mount device %q at %q: %v"
                              [AStr dev; AStr mnt; AErr err])
                (defer (LogOp (r <- invoke env (Unmount mnt 0) ;;
                               ret (err_of r)))
                   (let dest := mnt in
                    writeFiles dest (Filesystem.Files fs))))
       end).

(** The [if fs.Initialize { ... }] block of [createFilesystems]: the
    choice of the formatter and its invocation. *)
Definition mkfsCommand (fs : Filesystem.t)
  : error + (string * list string) :=
  let args := Filesystem.Options fs in
  let chosen :=
    if String.eqb (Filesystem.Format fs) "btrfs"
    then inr ("/sbin/mkfs.btrfs", args ++ ["--force"])
    else if String.eqb (Filesystem.Format fs) "ext4"
    then inr ("/sbin/mkfs.ext4", args ++ ["-F"])
    else inl (Errorf "unsupported filesystem format: %q"
                [AStr (Filesystem.Format fs)]) in
  match chosen with
  | inl err => inl err
  | inr (mkfs, args) => inr (mkfs, args ++ [Filesystem.Device fs])
  end.

(** The body of the loop of [createFilesystems] for one entry. *)
Definition createFilesystem (fs : Filesystem.t) : M (option error) :=
  check
    (if Filesystem.Initialize fs
     then
       match mkfsCommand fs with
       | inl err => ret (Some err)
       | inr (mkfs, args) =>
           check (LogCmd env mkfs args)
             (fun err => Errorf "failed to run %q: %v %v"
                           [AStr mkfs; AErr err; AStrs args])
             (ret None)
       end
     else ret None)
    (fun err => err)
    (check (createFiles fs)
       (fun err => Errorf "failed to create files %q: %v"
                     [AStr (Filesystem.Device fs); AErr err])
       (ret None)).

(** [storage.createFilesystems]. *)
Definition createFilesystems (config : Config.t) : M (option error) :=
  let filesystems := Storage.Filesystems (Config.Storage config) in
  if len filesystems =? 0 then ret None
  else
    act (PushPrefix "createFilesystems") ;;
    defer (act PopPrefix)
      (let devs :=
         range_append filesystems (fun fs => [Filesystem.Device fs]) [] in
       check (waitOnDevices devs "filesystems") (fun err => err)
         (range_err filesystems createFilesystem)).

(** [storage.writeSystemdUnit]. *)
Definition writeSystemdUnit (unit : SystemdUnit.t) : M (option error) :=
  LogOp
    (check
       (range_err (SystemdUnit.DropIns unit)
          (fun dropin =>
             if String.eqb (SystemdUnitDropIn.Contents dropin) ""
             then ret None
             else
               let f := util.FileFromUnitDropin D unit dropin in
               check (LogOp (util.WriteFile env DestDir f)) (fun err => err)
                 (ret None)))
       (fun err => err)
       (if String.eqb (SystemdUnit.Contents unit) ""
        then ret None
        else
          let f := util.FileFromSystemdUnit D unit in
          check (LogOp (util.WriteFile env DestDir f)) (fun err => err)
            (ret None))).

(** [storage.writeNetworkdUnit]. *)
Definition writeNetworkdUnit (unit : NetworkdUnit.t) : M (option error) :=
  LogOp
    (if String.eqb (NetworkdUnit.Contents unit) ""
     then ret None
     else
       let f := util.FileFromNetworkdUnit D unit in
       check (LogOp (util.WriteFile env DestDir f)) (fun err => err)
         (ret None)).

(** The body of the first loop of [createUnits] for one unit. *)
Definition createSystemdUnit (unit : SystemdUnit.t) : M (option error) :=
  check (writeSystemdUnit unit) (fun err => err)
    (check
       (if SystemdUnit.Enable unit
        then LogOp (util.EnableUnit D env DestDir unit)
        else ret None)
       (fun err => err)
       (check
          (if SystemdUnit.Mask unit
           then LogOp (util.MaskUnit D env DestDir unit)
           else ret None)
          (fun err => err)
          (ret None))).

(** [storage.createUnits]. *)
Definition createUnits (config : Config.t) : M (option error) :=
  check (range_err (Config.SystemdUnits config) createSystemdUnit)
    (fun err => err)
    (range_err (Config.NetworkdUnits config)
       (fun unit => check (writeNetworkdUnit unit) (fun err => err)
                      (ret None))).

(** [storage.Run]. *)
Definition Run (config : Config.t) : M bool :=
  e <- createPartitions config ;;
  match e with
  | Some err => act (Crit "create partitions failed: %v" [AErr err]) ;; ret false
  | None =>
      e <- createRaids config ;;
      match e with
      | Some err => act (Crit "failed to create raids: %v" [AErr err]) ;; ret false
      | None =>
          e <- createFilesystems config ;;
          match e with
          | Some err =>
              act (Crit "failed to create filesystems: %v" [AErr err]) ;;
              ret false
          | None =>
              e <- createUnits config ;;
              match e with
              | Some err =>
                  act (Crit "failed to create units: %v" [AErr err]) ;;
                  ret false
              | None => ret true
              end
          end
      end
  end.

End Storage.
End Exec.

(** ** [src/exec/stages/storage/storage.go]: the [stage] struct *)

Module Stage.
Section Storage.
Variable env : Env.

(** [stage.waitOnDevices]. *)
Definition waitOnDevices (devs : list string) (ctxt : string)
  : M (option error) :=
  e <- LogOp (r <- invoke env (WaitOnDevices devs ctxt) ;; ret (err_of r)) ;;
  match e with
  | Some err =>
      ret (Some (Errorf "failed to wait on %s devs: %v" [AStr ctxt; AErr err]))
  | None => ret None
  end.

(** [stage.createPartitions]. *)
Definition createPartitions (config : Config.t) : M (option error) :=
  let disks := Storage.Disks (Config.Storage config) in
  if len disks =? 0 then ret None
  else
    act (PushPrefix "createPartitions") ;;
    defer (act PopPrefix)
      (let devs := range_append disks (fun disk => [Disk.Device disk]) [] in
       e <- waitOnDevices devs "disks" ;;
       match e with
       | Some err => ret (Some err)
       | None =>
           range_err disks
             (fun dev =>
                LogOp
                  (let op := Disk.Device dev in
                   act (Begin op) ;;
                   (if Disk.WipeTable dev
                    then act (Info "wiping partition table requested on %q"
                                [AStr (Disk.Device dev)]) ;;
                         act (WipeTable op true)
                    else ret tt) ;;
                   range_do (Disk.Partitions dev)
                     (fun part =>
                        act (CreatePartition op
                               (sgdisk.mkPartition
                                  (Partition.Number part)
                                  (uint64 (Partition.Size part))
                                  (uint64 (Partition.Start part))
                                  (Partition.Label part)
                                  (Partition.TypeGUID part)))) ;;
                   r <- invoke env (Commit op) ;;
                   match err_of r with
                   | Some err =>
                       ret (Some (Errorf "commit failure: %v" [AErr err]))
                   | None => ret None
                   end))
       end).

(** [stage.createRaids]. *)
Definition createRaids (config : Config.t) : M (option error) :=
  let arrays := Storage.Arrays (Config.Storage config) in
  if len arrays =? 0 then ret None
  else
    act (PushPrefix "createRaids") ;;
    defer (act PopPrefix)
      (let devs := range_append arrays (fun array => Raid.Devices array) [] in
       e <- waitOnDevices devs "raids" ;;
       match e with
       | Some err => ret (Some err)
       | None =>
           range_err arrays
             (fun md =>
                let args :=
                  [ "--create"; Raid.Name md;
                    "--force";
                    "--run";
                    "--level"; Raid.Level md;
                    "--raid-devices";
                    Sprintf_d (int_sub (len (Raid.Devices md)) (Raid.Spares md)) ] in
                let args :=
                  if Raid.Spares md >? 0
                  then args ++ ["--spare-devices"; Sprintf_d (Raid.Spares md)]
                  else args in
                let args := range_append (Raid.Devices md) (fun dev => [dev]) args in
                e <- LogCmd env "/sbin/mdadm" args ;;
                match e with
                | Some err => ret (Some (Errorf "mdadm failed: %v" [AErr err]))
                | None => ret None
                end)
       end).

(** [util.Util.WriteFile] on [u = util.Util{Logger, DestDir: mnt}]: the
    file-write primitive, as [util.DestDir.WriteFile]. *)
Definition Util_WriteFile (mnt : string) (f : File.t) : M (option error) :=
  r <- invoke env (WriteFile mnt f) ;; ret (err_of r).

(** [stage.createFiles]. *)
Definition createFiles (fs : Filesystem.t) : M (option error) :=
  if len (Filesystem.Files fs) =? 0 then ret None
  else
    act (PushPrefix "createFiles") ;;
    defer (act PopPrefix)
      (r <- invoke env (TempDir "" "ignition-files") ;;
       match r with
       | Fail msg =>
           ret (Some (Errorf "failed to create temp directory: %v"
                        [AErr (Errno msg)]))
       | Ok mnt =>
           defer (invoke env (Remove mnt))
             (let dev := Filesystem.Device fs in
              let format := Filesystem.Format fs in
              e <- LogOp (r <- invoke env (Mount dev mnt format 0 "") ;;
                          ret (err_of r)) ;;
              match e with
              | Some err =>
                  ret (Some (Errorf "failed to mount device %q at %q: %v"
                               [AStr dev; AStr mnt; AErr err]))
              | None =>
                  defer (LogOp (r <- invoke env (Unmount mnt 0) ;;
                                ret (err_of r)))
                    (range_err (Filesystem.Files fs)
                       (fun f =>
                          e <- LogOp (Util_WriteFile mnt f) ;;
                          match e with
                          | Some err =>
                              ret (Some (Errorf "failed to create file %q: %v"
                                           [AStr (File.Path f); AErr err]))
                          | None => ret None
                          end))
              end)
       end).

(** [stage.createFilesystems]. *)
Definition createFilesystems (config : Config.t) : M (option error) :=
  let filesystems := Storage.Filesystems (Config.Storage config) in
  if len filesystems =? 0 then ret None
  else
    act (PushPrefix "createFilesystems") ;;
    defer (act PopPrefix)
      (let devs :=
         range_append filesystems (fun fs => [Filesystem.Device fs]) [] in
       e <- waitOnDevices devs "filesystems" ;;
       match e with
       | Some err => ret (Some err)
       | None =>
           range_err filesystems
             (fun fs =>
                e <- (if Filesystem.Initialize fs
                      then
                        let args := Filesystem.Options fs in
                        if String.eqb (Filesystem.Format fs) "btrfs"
                        then
                          let mkfs := "/sbin/mkfs.btrfs" in
                          let args := (args ++ ["--force"]) ++ [Filesystem.Device fs] in
                          e <- LogCmd env mkfs args ;;
                          match e with
                          | Some err =>
                              ret (Some (Errorf "failed to run %q: %v %v"
                                           [AStr mkfs; AErr err; AStrs args]))
                          | None => ret None
                          end
                        else if String.eqb (Filesystem.Format fs) "ext4"
                        then
                          let mkfs := "/sbin/mkfs.ext4" in
                          let args := (args ++ ["-F"]) ++ [Filesystem.Device fs] in
                          e <- LogCmd env mkfs args ;;
                          match e with
                          | Some err =>
                              ret (Some (Errorf "failed to run %q: %v %v"
                                           [AStr mkfs; AErr err; AStrs args]))
                          | None => ret None
                          end
                        else
                          ret (Some (Errorf "unsupported filesystem format: %q"
                                       [AStr (Filesystem.Format fs)]))
                      else ret None) ;;
                match e with
                | Some err => ret (Some err)
                | None =>
                    e <- createFiles fs ;;
                    match e with
                    | Some err =>
                        ret (Some (Errorf "failed to create files %q: %v"
                                     [AStr (Filesystem.Device fs); AErr err]))
                    | None => ret None
                    end
                end)
       end).

(** [stage.Run]. *)
Definition Run (config : Config.t) : M bool :=
  e <- createPartitions config ;;
  match e with
  | Some err => act (Crit "create partitions failed: %v" [AErr err]) ;; ret false
  | None =>
      e <- createRaids config ;;
      match e with
      | Some err => act (Crit "failed to create raids: %v" [AErr err]) ;; ret false
      | None =>
          e <- createFilesystems config ;;
          match e with
          | Some err =>
              act (Crit "failed to create filesystems: %v" [AErr err]) ;;
              ret false
          | None => ret true
          end
      end
  end.

End Storage.
End Stage.

(** ** Environments and configurations used in the examples *)

Definition all_ok : Env :=
  fun _ c =>
    match c with
    | TempDir _ _ => Ok "/tmp/ignition-files1"
    | _ => Ok ""
    end.

Definition decls0 : util.Decls :=
  {| util.SystemdUnitsPath := "/etc/systemd/system";
     util.NetworkdUnitsPath := "/etc/systemd/network";
     util.SystemdDropinsPath := fun unit => String.append "/etc/systemd/system/" (String.append unit ".d");
     util.DefaultFilePermissions := 420;
     util.filepath_Join := String.concat "/";
     util.JoinPath := fun d l => String.append d (String.concat "/" l) |}.

(** ** Vocabulary of the statements *)

(** The calls among a list of steps, in order. *)
Fixpoint calls (s : list step) : list call :=
  match s with
  | [] => []
  | Act _ :: s' => calls s'
  | Did c _ :: s' => c :: calls s'
  end.

(** A step that changes a disk, an array, a filesystem, a mount table or a
    file: everything but the logger's bookkeeping and the wait itself. *)
Definition mutating (s : step) : bool :=
  match s with
  | Act (Begin _) | Act (WipeTable _ _) | Act (CreatePartition _ _) => true
  | Act _ => false
  | Did (WaitOnDevices _ _) _ => false
  | Did _ _ => true
  end.


(** A step that attempts an unmount. *)
Definition is_unmount (s : step) : bool :=
  match s with
  | Did (Unmount _ _) _ => true
  | _ => false
  end.

(** A step that uses the partition-table capability on [dev]. *)
Definition uses_partition_table (dev : string) (s : step) : bool :=
  match s with
  | Act (Begin d) | Act (WipeTable d _) | Act (CreatePartition d _)
  | Did (Commit d) _ => String.eqb d dev
  | _ => false
  end.

(** [written dest files ws e]: [ws] are the writes of [files] under [dest]
    in order, each one answered with success, up to and including the first
    one that fails, if any; [e] is the error returned for that failure. *)
Inductive written (dest : string)
  : list File.t -> list step -> option error -> Prop :=
| written_nil : written dest [] [] None
| written_ok f v files ws e :
    written dest files ws e ->
    written dest (f :: files) (Did (WriteFile dest f) (Ok v) :: ws) e
| written_fail f msg files :
    written dest (f :: files) [Did (WriteFile dest f) (Fail msg)]
      (Some (Errorf "failed to create file %q: %v"
               [AStr (File.Path f); AErr (Errno msg)])).

(** ** More environments and configurations for the examples *)

(** The filesystem of the scenario of the specification: ext4 on
    [/dev/sda1], initialised, one file. *)
Definition fs_hostname : Filesystem.t :=
  {| Filesystem.Device := "/dev/sda1";
     Filesystem.Format := "ext4";
     Filesystem.Initialize := true;
     Filesystem.Options := [];
     Filesystem.Files :=
       [ {| File.Path := "/etc/hostname"; File.Contents := "node1";
            File.Mode := 420; File.Uid := 0; File.Gid := 0 |} ] |}.

(** Two files on an existing filesystem that is not to be formatted. *)
Definition fs_two_files : Filesystem.t :=
  {| Filesystem.Device := "/dev/sdb1";
     Filesystem.Format := "btrfs";
     Filesystem.Initialize := false;
     Filesystem.Options := [];
     Filesystem.Files :=
       [ {| File.Path := "/a"; File.Contents := "1";
            File.Mode := 420; File.Uid := 0; File.Gid := 0 |};
         {| File.Path := "/b"; File.Contents := "2";
            File.Mode := 420; File.Uid := 0; File.Gid := 0 |} ] |}.

(** Every call succeeds except [mount], which returns an error. *)
Definition mount_fails : Env :=
  fun _ c =>
    match c with
    | TempDir _ _ => Ok "/tmp/ignition-files1"
    | Mount _ _ _ _ _ => Fail "invalid argument"
    | _ => Ok ""
    end.

(** The write of [/b] fails, and so does every unmount. *)
Definition write_b_and_unmount_fail : Env :=
  fun _ c =>
    match c with
    | TempDir _ _ => Ok "/tmp/ignition-files1"
    | WriteFile _ f =>
        if String.eqb (File.Path f) "/b" then Fail "no space left on device"
        else Ok ""
    | Unmount _ _ => Fail "device or resource busy"
    | _ => Ok ""
    end.

(** One disk, no wipe requested, no partition configured. *)
Definition disk_untouched : Disk.t :=
  {| Disk.Device := "/dev/sda"; Disk.WipeTable := false;
     Disk.Partitions := [] |}.

Definition config_of_disks (disks : list Disk.t) : Config.t :=
  {| Config.Storage :=
       {| Storage.Disks := disks; Storage.Arrays := [];
          Storage.Filesystems := [] |};
     Config.SystemdUnits := [];
     Config.NetworkdUnits := [] |}.

(** [waits_first env prefix ctxt devs idle phase]: a phase with nothing
    configured ([idle]) does nothing at all; otherwise its first steps are
    the logger prefix and the wait on exactly [devs], and when that wait
    fails the phase returns the wrapped error having done nothing else than
    pop the prefix. *)
Definition waits_first (env : Env) (prefix ctxt : string)
  (devs : list string) (idle : bool) (phase : M (option error)) : Prop :=
  forall h : history,
    if idle then phase h = (None, [])
    else
      let r := env (h ++ [Act (PushPrefix prefix)]) (WaitOnDevices devs ctxt) in
      exists rest,
        snd (phase h) =
        Act (PushPrefix prefix) :: Did (WaitOnDevices devs ctxt) r :: rest
        /\ (forall msg, r = Fail msg ->
              fst (phase h) =
              Some (Errorf "failed to wait on %s devs: %v"
                      [AStr ctxt; AErr (Errno msg)])
              /\ rest = [Act PopPrefix])
        /\ (forall s, In s (snd (phase h)) -> mutating s = true ->
              exists v, r = Ok v).

Definition is_nil {A} (l : list A) : bool :=
  match l with [] => true | _ => false end.

(** The scenario of the specification with the unsupported format. *)
Definition fs_zfs : Filesystem.t :=
  {| Filesystem.Device := "/dev/sdc1";
     Filesystem.Format := "zfs";
     Filesystem.Initialize := true;
     Filesystem.Options := [];
     Filesystem.Files :=
       [ {| File.Path := "/etc/hostname"; File.Contents := "node1";
            File.Mode := 420; File.Uid := 0; File.Gid := 0 |} ] |}.

Definition config_of_filesystems (filesystems : list Filesystem.t)
  : Config.t :=
  {| Config.Storage :=
       {| Storage.Disks := []; Storage.Arrays := [];
          Storage.Filesystems := filesystems |};
     Config.SystemdUnits := [];
     Config.NetworkdUnits := [] |}.

(** An array of five members, one of them a spare. *)
Definition md_five_one : Raid.t :=
  {| Raid.Name := "/dev/md0"; Raid.Level := "raid5";
     Raid.Devices := ["/dev/sdb"; "/dev/sdc"; "/dev/sdd"; "/dev/sde"; "/dev/sdf"];
     Raid.Spares := 1 |}.


(** ** The unit phase, in the words of the specification *)

Section UnitCalls.
Variable D : util.Decls.
Variable DestDir : string.

(** One write per drop-in whose contents are not empty, in order. *)
Definition dropin_writes (unit : SystemdUnit.t) : list call :=
  map (fun dropin => WriteFile DestDir (util.FileFromUnitDropin D unit dropin))
    (filter (fun dropin =>
               negb (String.eqb (SystemdUnitDropIn.Contents dropin) ""))
       (SystemdUnit.DropIns unit)).

(** The write of the unit's own file, unless its contents are empty. *)
Definition unit_write (unit : SystemdUnit.t) : list call :=
  if String.eqb (SystemdUnit.Contents unit) "" then []
  else [WriteFile DestDir (util.FileFromSystemdUnit D unit)].

(** Enabling: the line [enable <name>] appended to the preset file. *)
Definition enable_calls (unit : SystemdUnit.t) : list call :=
  if SystemdUnit.Enable unit then
    let path := util.JoinPath D DestDir [util.presetPath] in
    [ MkdirForFile path;
      OpenFile path (Z.lor (Z.lor util.O_RDWR util.O_APPEND) util.O_CREATE)
        util.DefaultPresetPermissions;
      WriteString path
        (String.append "enable "
           (String.append (SystemdUnit.Name unit) util.newline));
      Close path ]
  else [].

(** Masking: the unit's path linked to the null device. *)
Definition mask_calls (unit : SystemdUnit.t) : list call :=
  if SystemdUnit.Mask unit then
    let path :=
      util.JoinPath D DestDir
        [util.SystemdUnitsPath D; SystemdUnit.Name unit] in
    [ MkdirForFile path; Symlink "/dev/null" path ]
  else [].

Definition systemd_unit_calls (unit : SystemdUnit.t) : list call :=
  dropin_writes unit ++ unit_write unit ++ enable_calls unit ++ mask_calls unit.

End UnitCalls.

(** [performs m expected h]: started from [h], the calls of [m] are the
    first ones of [expected], and all of them when [m] returns no error. *)
Definition performs (m : M (option error)) (expected : list call)
  (h : history) : Prop :=
  (exists rest, expected = calls (snd (m h)) ++ rest)
  /\ (fst (m h) = None -> calls (snd (m h)) = expected).

(** A unit without contents, with one drop-in that has contents and one
    that has none, to enable and to mask. *)
Definition unit_empty_contents : SystemdUnit.t :=
  {| SystemdUnit.Name := "foo.service";
     SystemdUnit.Enable := true;
     SystemdUnit.Mask := true;
     SystemdUnit.Contents := "";
     SystemdUnit.DropIns :=
       [ {| SystemdUnitDropIn.Name := "a.conf";
            SystemdUnitDropIn.Contents := "[Service]" |};
         {| SystemdUnitDropIn.Name := "b.conf";
            SystemdUnitDropIn.Contents := "" |} ] |}.

(** Two computations that return the same value and perform the same steps
    from every history. *)
Definition eqm {A} (m m' : M A) : Prop := forall h, m h = m' h.

(** A call of the storage phases on [config]: not one of the calls that
    enable or mask a unit, and if it writes a file, then a file declared for
    one of the filesystems. *)
Definition storage_call (config : Config.t) (c : call) : Prop :=
  match c with
  | WaitOnDevices _ _ | Commit _ | Command _ _ | TempDir _ _ | Remove _
  | Mount _ _ _ _ _ | Unmount _ _ => True
  | WriteFile _ f =>
      exists fs,
        In fs (Storage.Filesystems (Config.Storage config))
        /\ In f (Filesystem.Files fs)
  | MkdirForFile _ | OpenFile _ _ _ | WriteString _ _ | Close _
  | Symlink _ _ => False
  end.

(** All the calls of [m], from any history, satisfy [P]. *)
Definition confined {A} (P : call -> Prop) (m : M A) : Prop :=
  forall h, Forall P (calls (snd (m h))).

(** A configuration with nothing but one systemd unit. *)
Definition config_one_unit : Config.t :=
  {| Config.Storage :=
       {| Storage.Disks := []; Storage.Arrays := [];
          Storage.Filesystems := [] |};
     Config.SystemdUnits :=
       [ {| SystemdUnit.Name := "bar.service";
            SystemdUnit.Enable := false;
            SystemdUnit.Mask := false;
            SystemdUnit.Contents := "[Unit]";
            SystemdUnit.DropIns := [] |} ];
     Config.NetworkdUnits := [] |}.

(** Every call succeeds except the commit of a partition table. *)
Definition commit_fails : Env :=
  fun _ c =>
    match c with
    | Commit _ => Fail "sgdisk failed"
    | _ => Ok ""
    end.

(** One disk and one array. *)
Definition config_disk_and_array : Config.t :=
  {| Config.Storage :=
       {| Storage.Disks := [disk_untouched]; Storage.Arrays := [md_five_one];
          Storage.Filesystems := [] |};
     Config.SystemdUnits := [];
     Config.NetworkdUnits := [] |}.

(** ** Vocabulary of the further properties *)



(** The depth of the logger's prefix stack after the steps [s], started at
    depth [n]; [None] when a prefix is popped that was never pushed. *)
Fixpoint prefix_depth (n : nat) (s : list step) : option nat :=
  match s with
  | [] => Some n
  | Act (PushPrefix _) :: s' => prefix_depth (S n) s'
  | Act PopPrefix :: s' =>
      match n with
      | O => None
      | S n' => prefix_depth n' s'
      end
  | _ :: s' => prefix_depth n s'
  end.

(** [m] leaves the prefix stack as it found it. *)
Definition balanced {A} (m : M A) : Prop :=
  forall h n, prefix_depth n (snd (m h)) = Some n.

(** The calls that release what was acquired; their failure is ignored by
    the code. *)
Definition is_cleanup (c : call) : bool :=
  match c with
  | Unmount _ _ | Remove _ | Close _ => true
  | _ => false
  end.

(** A call that failed and is not a cleanup. *)
Definition failed_step (s : step) : bool :=
  match s with
  | Did c (Fail _) => negb (is_cleanup c)
  | _ => false
  end.

(** The fail-fast discipline, as a checker over the steps.  The state
    tells whether a call other than a cleanup has failed; once one has, only
    cleanups may be called.  [None] is a violation. *)
Fixpoint fail_fast_run (failed : bool) (s : list step) : option bool :=
  match s with
  | [] => Some failed
  | Act _ :: s' => fail_fast_run failed s'
  | Did c r :: s' =>
      if failed
      then if is_cleanup c then fail_fast_run true s' else None
      else fail_fast_run (failed_step (Did c r)) s'
  end.

(** [m] is fail-fast: its steps respect the discipline, and it returns an
    error when a call other than a cleanup has failed. *)
Definition fail_fast (m : M (option error)) : Prop :=
  forall h,
    exists failed,
      fail_fast_run false (snd (m h)) = Some failed
      /\ (failed = true -> fst (m h) <> None).

(** The steps of the partitioning of one disk, up to the commit. *)
Definition partition_queue (dev : Disk.t) : list step :=
  Act (Begin (Disk.Device dev))
  :: (if Disk.WipeTable dev
      then [ Act (Info "wiping partition table requested on %q"
                    [AStr (Disk.Device dev)]);
             Act (WipeTable (Disk.Device dev) true) ]
      else [])
  ++ map (fun part =>
            Act (CreatePartition (Disk.Device dev)
                   {| sgdisk.Number := Partition.Number part;
                      sgdisk.Length := Partition.Size part;
                      sgdisk.Offset := Partition.Start part;
                      sgdisk.Label := Partition.Label part;
                      sgdisk.TypeGUID := Partition.TypeGUID part |}))
       (Disk.Partitions dev).

(** The write of a networkd unit, unless its contents are empty. *)
Definition networkd_write (D : util.Decls) (DestDir : string)
  (unit : NetworkdUnit.t) : list call :=
  if String.eqb (NetworkdUnit.Contents unit) "" then []
  else [WriteFile DestDir (util.FileFromNetworkdUnit D unit)].

(** A configuration with nothing to do. *)
Definition config_empty : Config.t :=
  {| Config.Storage :=
       {| Storage.Disks := []; Storage.Arrays := [];
          Storage.Filesystems := [] |};
     Config.SystemdUnits := [];
     Config.NetworkdUnits := [] |}.

(** An entry to format, with no file to write. *)
Definition fs_no_files : Filesystem.t :=
  {| Filesystem.Device := "/dev/sdd1";
     Filesystem.Format := "btrfs";
     Filesystem.Initialize := true;
     Filesystem.Options := ["--label"; "DATA"];
     Filesystem.Files := [] |}.

(** Every call succeeds except the creation of the temporary directory. *)
Definition tempdir_fails : Env :=
  fun _ c =>
    match c with
    | TempDir _ _ => Fail "read-only file system"
    | _ => Ok ""
    end.

(** Every call succeeds except the formatter. *)
Definition mkfs_fails : Env :=
  fun _ c =>
    match c with
    | TempDir _ _ => Ok "/tmp/ignition-files1"
    | Command _ _ => Fail "exit status 1"
    | _ => Ok ""
    end.

(** A disk to wipe, with two partitions. *)
Definition disk_two_parts : Disk.t :=
  {| Disk.Device := "/dev/sdb";
     Disk.WipeTable := true;
     Disk.Partitions :=
       [ {| Partition.Label := "ROOT"; Partition.Number := 1;
            Partition.Size := 0; Partition.Start := 0;
            Partition.TypeGUID := "0FC63DAF-8483-4772-8E79-3D69D8477DE4" |};
         {| Partition.Label := "DATA"; Partition.Number := 2;
            Partition.Size := 4096; Partition.Start := 2048;
            Partition.TypeGUID := "0FC63DAF-8483-4772-8E79-3D69D8477DE4" |} ] |}.

(** The steps of [m] leave the fail-fast state as it is: they are log
    lines, partition-table requests before the commit, or cleanups. *)
Definition tidy {A} (m : M A) : Prop :=
  forall h failed, fail_fast_run failed (snd (m h)) = Some failed.

(** A configuration with two systemd units and two networkd units, one of
    them without contents. *)
Definition config_units : Config.t :=
  {| Config.Storage :=
       {| Storage.Disks := []; Storage.Arrays := [];
          Storage.Filesystems := [] |};
     Config.SystemdUnits :=
       [ unit_empty_contents;
         {| SystemdUnit.Name := "bar.service";
            SystemdUnit.Enable := false;
            SystemdUnit.Mask := false;
            SystemdUnit.Contents := "[Unit]";
            SystemdUnit.DropIns := [] |} ];
     Config.NetworkdUnits :=
       [ {| NetworkdUnit.Name := "00-eth.network";
            NetworkdUnit.Contents := "[Match]" |};
         {| NetworkdUnit.Name := "10-empty.network";
            NetworkdUnit.Contents := "" |} ] |}.

(** The preset file cannot be written to; everything else succeeds. *)
Definition write_string_fails : Env :=
  fun _ c =>
    match c with
    | WriteString _ _ => Fail "no space left on device"
    | _ => Ok ""
    end.

(** A call of the filesystem phase on [config], with what it is made for:
    the wait on the devices of all entries; a formatter command, that of an
    entry to initialise; a temporary directory named after ignition; the
    mount of the device of an entry that has files, with the format of the
    entry as type, no flag and no data; an unmount without flag; a
    removal; the write of a file declared for an entry. *)
Definition filesystem_call (config : Config.t) (c : call) : Prop :=
  let filesystems := Storage.Filesystems (Config.Storage config) in
  match c with
  | WaitOnDevices devs ctxt =>
      devs = map Filesystem.Device filesystems /\ ctxt = "filesystems"
  | Command path args =>
      exists fs,
        In fs filesystems /\ Filesystem.Initialize fs = true
        /\ Exec.mkfsCommand fs = inr (path, args)
  | TempDir dir prefix => dir = "" /\ prefix = "ignition-files"
  | Mount source _ fstype flags data =>
      exists fs,
        In fs filesystems /\ Filesystem.Files fs <> []
        /\ source = Filesystem.Device fs /\ fstype = Filesystem.Format fs
        /\ flags = 0 /\ data = ""
  | Unmount _ flags => flags = 0
  | Remove _ => True
  | WriteFile _ f =>
      exists fs, In fs filesystems /\ In f (Filesystem.Files fs)
  | _ => False
  end.

(** ** The scoped-mount protocol and the blame of an error *)

(** The scoped-mount protocol, as a checker over the steps.  [Idle]: no
    temporary directory is outstanding.  [Created dir]: [dir] has been
    created and nothing has been mounted on it.  [Mounted dir]: the mount on
    [dir] succeeded and its unmount has not been attempted.  [Spent dir]:
    the mount on [dir] failed, or its unmount has been attempted (whatever
    the answer); only the removal of [dir] is left. *)
Inductive scope :=
| Idle
| Created (dir : string)
| Mounted (dir : string)
| Spent (dir : string).

Definition scope_step (st : scope) (s : step) : option scope :=
  match s with
  | Act _ => Some st
  | Did (TempDir _ _) r =>
      match st, r with
      | Idle, Ok dir => Some (Created dir)
      | Idle, Fail _ => Some Idle
      | _, _ => None
      end
  | Did (Mount _ target _ _ _) r =>
      match st with
      | Created dir =>
          if String.eqb dir target
          then Some (match r with Ok _ => Mounted dir | Fail _ => Spent dir end)
          else None
      | _ => None
      end
  | Did (WriteFile dest _) _ =>
      match st with
      | Mounted dir => if String.eqb dir dest then Some st else None
      | _ => None
      end
  | Did (Unmount target _) _ =>
      match st with
      | Mounted dir => if String.eqb dir target then Some (Spent dir) else None
      | _ => None
      end
  | Did (Remove path) _ =>
      match st with
      | Spent dir => if String.eqb dir path then Some Idle else None
      | _ => None
      end
  | Did (WaitOnDevices _ _) _ | Did (Command _ _) _ =>
      match st with
      | Idle => Some Idle
      | _ => None
      end
  | Did _ _ => None
  end.

Fixpoint scope_run (st : scope) (s : list step) : option scope :=
  match s with
  | [] => Some st
  | x :: s' =>
      match scope_step st x with
      | Some st' => scope_run st' s'
      | None => None
      end
  end.

(** [accounts B Q m]: the value [m] returns is accounted for by its steps.
    When [m] returns no error, no call other than a cleanup has failed.
    When it returns the error [e], either [e] is one of the errors [Q] that
    come without a failed call, and no call other than a cleanup has
    failed; or the steps have a first failed call [c] that is not a
    cleanup, nothing but cleanups is called after it, and [e] is the error
    [B] builds from [c] and its failure. *)
Definition accounts (B : call -> string -> error -> Prop)
  (Q : error -> Prop) (m : M (option error)) : Prop :=
  forall h,
    match fst (m h) with
    | None => existsb failed_step (snd (m h)) = false
    | Some e =>
        (Q e /\ existsb failed_step (snd (m h)) = false)
        \/ exists s1 c msg s2,
             snd (m h) = s1 ++ Did c (Fail msg) :: s2
             /\ is_cleanup c = false
             /\ existsb failed_step s1 = false
             /\ Forall (fun c' => is_cleanup c' = true) (calls s2)
             /\ B c msg e
    end.

(** No error comes without a failed call. *)
Definition no_quiet_error (e : error) : Prop := False.

(** The error is the one the failed call returned, as it is. *)
Definition bare_blame (c : call) (msg : string) (e : error) : Prop :=
  e = Errno msg.

(** The error the partition phase on [config] builds from a failed call:
    the wait on the devices of all disks, or the commit of one of them. *)
Inductive partition_blame (config : Config.t)
  : call -> string -> error -> Prop :=
| pb_wait msg :
    partition_blame config
      (WaitOnDevices
         (map Disk.Device (Storage.Disks (Config.Storage config))) "disks")
      msg
      (Errorf "failed to wait on %s devs: %v"
         [AStr "disks"; AErr (Errno msg)])
| pb_commit dev msg :
    In dev (Storage.Disks (Config.Storage config)) ->
    partition_blame config (Commit (Disk.Device dev)) msg
      (Errorf "commit failure: %v" [AErr (Errno msg)]).

(** The error the RAID phase on [config] builds from a failed call: the
    wait on the members of all arrays, or the [mdadm] of one of them. *)
Inductive raid_blame (config : Config.t)
  : call -> string -> error -> Prop :=
| rb_wait msg :
    raid_blame config
      (WaitOnDevices
         (flat_map Raid.Devices (Storage.Arrays (Config.Storage config)))
         "raids")
      msg
      (Errorf "failed to wait on %s devs: %v"
         [AStr "raids"; AErr (Errno msg)])
| rb_mdadm md msg :
    In md (Storage.Arrays (Config.Storage config)) ->
    raid_blame config (Command "/sbin/mdadm" (Exec.mdadmArgs md)) msg
      (Errorf "mdadm failed: %v" [AErr (Errno msg)]).

(** The error [createFiles] on [fs] builds from a failed call: it names the
    device and the directory of the failed mount, and the path of the file
    of [fs] whose write failed. *)
Inductive files_blame (fs : Filesystem.t)
  : call -> string -> error -> Prop :=
| fb_tempdir msg :
    files_blame fs (TempDir "" "ignition-files") msg
      (Errorf "failed to create temp directory: %v" [AErr (Errno msg)])
| fb_mount mnt msg :
    files_blame fs
      (Mount (Filesystem.Device fs) mnt (Filesystem.Format fs) 0 "") msg
      (Errorf "failed to mount device %q at %q: %v"
         [AStr (Filesystem.Device fs); AStr mnt; AErr (Errno msg)])
| fb_file dest f msg :
    In f (Filesystem.Files fs) ->
    files_blame fs (WriteFile dest f) msg
      (Errorf "failed to create file %q: %v"
         [AStr (File.Path f); AErr (Errno msg)]).

(** The error the work on the entry [fs] builds from a failed call: a
    failed formatter is named with its arguments; a failure of the file
    population is wrapped with the device of the entry. *)
Inductive entry_blame (fs : Filesystem.t) : call -> string -> error -> Prop :=
| eb_mkfs path args msg :
    Exec.mkfsCommand fs = inr (path, args) ->
    entry_blame fs (Command path args) msg
      (Errorf "failed to run %q: %v %v"
         [AStr path; AErr (Errno msg); AStrs args])
| eb_files c msg err :
    files_blame fs c msg err ->
    entry_blame fs c msg
      (Errorf "failed to create files %q: %v"
         [AStr (Filesystem.Device fs); AErr err]).

(** The unsupported-format error of the entry [fs]. *)
Definition unsupported_entry (fs : Filesystem.t) (e : error) : Prop :=
  Filesystem.Initialize fs = true
  /\ Filesystem.Format fs <> "btrfs"
  /\ Filesystem.Format fs <> "ext4"
  /\ e = Errorf "unsupported filesystem format: %q"
           [AStr (Filesystem.Format fs)].

(** The error the filesystem phase on [config] builds from a failed call:
    the wait on the devices of all entries, or the work on one of them. *)
Inductive filesystems_blame (config : Config.t)
  : call -> string -> error -> Prop :=
| fsb_wait msg :
    filesystems_blame config
      (WaitOnDevices
         (map Filesystem.Device (Storage.Filesystems (Config.Storage config)))
         "filesystems")
      msg
      (Errorf "failed to wait on %s devs: %v"
         [AStr "filesystems"; AErr (Errno msg)])
| fsb_entry fs c msg e :
    In fs (Storage.Filesystems (Config.Storage config)) ->
    entry_blame fs c msg e ->
    filesystems_blame config c msg e.

(** The unsupported-format error of an entry of [config]. *)
Definition unsupported_in (config : Config.t) (e : error) : Prop :=
  exists fs,
    In fs (Storage.Filesystems (Config.Storage config))
    /\ unsupported_entry fs e.

(** A call of the unit phase on [config], with what it is made for.  Every
    file is written with [DestDir] as destination and is the file of a
    configured unit or drop-in; every other path is [JoinPath] of
    [DestDir]: the preset file, opened for appending and creation with mode
    0644 and written with the line of a unit to enable; the path of a unit
    to mask, linked to [/dev/null]; and the directories of these two. *)
Definition unit_phase_call (D : util.Decls) (DestDir : string)
  (config : Config.t) (c : call) : Prop :=
  let preset := util.JoinPath D DestDir [util.presetPath] in
  let unit_path unit :=
    util.JoinPath D DestDir
      [util.SystemdUnitsPath D; SystemdUnit.Name unit] in
  match c with
  | WriteFile dest f =>
      dest = DestDir
      /\ ((exists unit,
             In unit (Config.SystemdUnits config)
             /\ (f = util.FileFromSystemdUnit D unit
                 \/ exists dropin,
                      In dropin (SystemdUnit.DropIns unit)
                      /\ f = util.FileFromUnitDropin D unit dropin))
          \/ exists unit,
               In unit (Config.NetworkdUnits config)
               /\ f = util.FileFromNetworkdUnit D unit)
  | MkdirForFile path =>
      path = preset
      \/ exists unit,
           In unit (Config.SystemdUnits config)
           /\ SystemdUnit.Mask unit = true /\ path = unit_path unit
  | OpenFile path flag perm =>
      path = preset /\ flag = 0x442 /\ perm = 0x1a4
  | WriteString path s =>
      path = preset
      /\ exists unit,
           In unit (Config.SystemdUnits config)
           /\ SystemdUnit.Enable unit = true
           /\ s = String.append "enable "
                    (String.append (SystemdUnit.Name unit) util.newline)
  | Close path => path = preset
  | Symlink oldname newname =>
      oldname = "/dev/null"
      /\ exists unit,
           In unit (Config.SystemdUnits config)
           /\ SystemdUnit.Mask unit = true /\ newname = unit_path unit
  | _ => False
  end.

(** Two filesystems with one file each, none to be formatted. *)
Definition fs_second : Filesystem.t :=
  {| Filesystem.Device := "/dev/sdc1";
     Filesystem.Format := "ext4";
     Filesystem.Initialize := false;
     Filesystem.Options := [];
     Filesystem.Files :=
       [ {| File.Path := "/c"; File.Contents := "3";
            File.Mode := 420; File.Uid := 0; File.Gid := 0 |} ] |}.

(** * Properties *)

(** ** General facts about the monad and the loops *)

Lemma bind_eq {A B} (m : M A) (f : A -> M B) (h : history) :
  bind m f h =
  (fst (f (fst (m h)) (h ++ snd (m h))),
   snd (m h) ++ snd (f (fst (m h)) (h ++ snd (m h)))).
Proof.
  unfold bind. destruct (m h) as [a s1]; simpl.
  destruct (f a (h ++ s1)); reflexivity.
Qed.

Lemma range_append_flat {A B} (l : list A) (g : A -> list B) (acc : list B) :
  range_append l g acc = acc ++ flat_map g l.
Proof.
  unfold range_append. revert acc.
  induction l as [|x l IH]; intros acc; simpl.
  - now rewrite app_nil_r.
  - rewrite IH. now rewrite <- app_assoc.
Qed.

Lemma range_append_singleton {A B} (l : list A) (g : A -> B) :
  range_append l (fun x => [g x]) [] = map g l.
Proof.
  rewrite range_append_flat. simpl.
  induction l as [|x l IH]; simpl; congruence.
Qed.

Lemma len_zero {A} (l : list A) : (len l =? 0) = true <-> l = [].
Proof.
  unfold len. destruct l; simpl; split; intro H; try reflexivity; try discriminate.
Qed.

Lemma len_cons {A} (x : A) (l : list A) : (len (x :: l) =? 0) = false.
Proof. reflexivity. Qed.

Lemma check_eq (m : M (option error)) (wrap : error -> error)
  (k : M (option error)) (h : history) :
  check m wrap k h =
  match fst (m h) with
  | Some err => (Some (wrap err), snd (m h))
  | None => (fst (k (h ++ snd (m h))), snd (m h) ++ snd (k (h ++ snd (m h))))
  end.
Proof.
  unfold check. rewrite bind_eq.
  destruct (fst (m h)); simpl; [now rewrite app_nil_r | reflexivity].
Qed.

Lemma defer_eq {A B} (cleanup : M B) (body : M A) (h : history) :
  defer cleanup body h =
  (fst (body h), snd (body h) ++ snd (cleanup (h ++ snd (body h)))).
Proof.
  unfold defer. rewrite bind_eq. simpl. rewrite bind_eq. simpl.
  now rewrite app_nil_r.
Qed.

Lemma range_err_cons {A} (x : A) (l : list A) (f : A -> M (option error))
  (h : history) :
  range_err (x :: l) f h =
  match fst (f x h) with
  | Some err => (Some err, snd (f x h))
  | None => (fst (range_err l f (h ++ snd (f x h))),
             snd (f x h) ++ snd (range_err l f (h ++ snd (f x h))))
  end.
Proof.
  simpl. rewrite bind_eq.
  destruct (fst (f x h)); simpl; [now rewrite app_nil_r | reflexivity].
Qed.

Lemma range_err_app {A} (l1 l2 : list A) (f : A -> M (option error))
  (h : history) :
  range_err (l1 ++ l2) f h =
  match fst (range_err l1 f h) with
  | Some err => (Some err, snd (range_err l1 f h))
  | None => (fst (range_err l2 f (h ++ snd (range_err l1 f h))),
             snd (range_err l1 f h) ++
             snd (range_err l2 f (h ++ snd (range_err l1 f h))))
  end.
Proof.
  revert h. induction l1 as [|x l1 IH]; intros h.
  - simpl. rewrite app_nil_r. now destruct (range_err l2 f h).
  - rewrite <- app_comm_cons. rewrite !range_err_cons.
    destruct (fst (f x h)) eqn:E; simpl; [reflexivity|].
    rewrite IH.
    destruct (fst (range_err l1 f (h ++ snd (f x h)))); simpl;
      [reflexivity|].
    now rewrite <- !app_assoc.
Qed.

Lemma range_err_ext {A} (l : list A) (f g : A -> M (option error)) :
  (forall x h, f x h = g x h) ->
  forall h, range_err l f h = range_err l g h.
Proof.
  intros Hfg. induction l as [|x l IH]; intros h; [reflexivity|].
  rewrite !range_err_cons, Hfg.
  destruct (fst (g x h)); [reflexivity|]. now rewrite IH.
Qed.

Lemma calls_app (s1 s2 : list step) : calls (s1 ++ s2) = calls s1 ++ calls s2.
Proof.
  induction s1 as [|[a|c r] s1 IH]; simpl; congruence.
Qed.

(** ** The pipeline *)

Section RunFacts.
Variable D : util.Decls.
Variable env : Env.
Variable DestDir : string.

(** C1.  [Run] goes through the four phases in the order partitions,
    RAID arrays, filesystems, units, each phase starting from the history
    the earlier ones left.  At the first phase that returns an error [Run]
    logs it and returns [false], and its steps are those of the phases up
    to the failing one followed by the log line: no later phase has run.
    [Run] returns [true] exactly when the four phases all return no
    error. *)
Theorem Run_four_phases (config : Config.t) (h : history) :
  let p1 := Exec.createPartitions env config h in
  let p2 := Exec.createRaids env config (h ++ snd p1) in
  let p3 := Exec.createFilesystems env config (h ++ snd p1 ++ snd p2) in
  let p4 := Exec.createUnits D env DestDir config (h ++ snd p1 ++ snd p2 ++ snd p3) in
  match fst p1, fst p2, fst p3, fst p4 with
  | Some err, _, _, _ =>
      Exec.Run D env DestDir config h =
      (false, snd p1 ++ [Act (Crit "create partitions failed: %v" [AErr err])])
  | None, Some err, _, _ =>
      Exec.Run D env DestDir config h =
      (false, snd p1 ++ snd p2 ++
              [Act (Crit "failed to create raids: %v" [AErr err])])
  | None, None, Some err, _ =>
      Exec.Run D env DestDir config h =
      (false, snd p1 ++ snd p2 ++ snd p3 ++
              [Act (Crit "failed to create filesystems: %v" [AErr err])])
  | None, None, None, Some err =>
      Exec.Run D env DestDir config h =
      (false, snd p1 ++ snd p2 ++ snd p3 ++ snd p4 ++
              [Act (Crit "failed to create units: %v" [AErr err])])
  | None, None, None, None =>
      Exec.Run D env DestDir config h = (true, snd p1 ++ snd p2 ++ snd p3 ++ snd p4)
  end
  /\ (fst (Exec.Run D env DestDir config h) = true <->
      fst p1 = None /\ fst p2 = None /\ fst p3 = None /\ fst p4 = None).
Proof.
  intros p1 p2 p3 p4.
  unfold Exec.Run.
  rewrite bind_eq. fold p1.
  destruct (fst p1) as [e1|] eqn:E1.
  { split; [reflexivity|]. simpl. split; [discriminate|].
    intros [H _]; discriminate. }
  rewrite bind_eq. fold p2.
  destruct (fst p2) as [e2|] eqn:E2.
  { split; [reflexivity|]. simpl. split; [discriminate|].
    intros (_ & H & _); discriminate. }
  rewrite bind_eq. rewrite <- app_assoc. fold p3.
  destruct (fst p3) as [e3|] eqn:E3.
  { split; [reflexivity|]. simpl. split; [discriminate|].
    intros (_ & _ & H & _); discriminate. }
  rewrite bind_eq. rewrite <- !app_assoc. fold p4.
  destruct (fst p4) as [e4|] eqn:E4.
  { split; [reflexivity|]. simpl. split; [discriminate|].
    intros (_ & _ & _ & H); discriminate. }
  split.
  - simpl. now rewrite app_nil_r.
  - simpl. tauto.
Qed.

End RunFacts.

(** A run in which the commit of the partition table fails: the partition
    phase returns the error, [Run] logs it and returns [false], and the
    array of the configuration is never assembled. *)
Lemma Run_stops_at_failed_partitions :
  Exec.Run decls0 commit_fails "/sysroot" config_disk_and_array [] =
  (false,
   [Act (PushPrefix "createPartitions");
    Did (WaitOnDevices ["/dev/sda"] "disks") (Ok "");
    Act (Begin "/dev/sda");
    Did (Commit "/dev/sda") (Fail "sgdisk failed");
    Act PopPrefix;
    Act (Crit "create partitions failed: %v"
           [AErr (Errorf "commit failure: %v"
                    [AErr (Errno "sgdisk failed")])])]).
Proof. reflexivity. Qed.

(** ** File population: the scoped mount *)

Section CreateFiles.
Variable env : Env.

(** The loop over the files writes them in order and stops at the first
    failure, whose error it returns. *)
Lemma writeFiles_written (dest : string) (files : list File.t) (h : history) :
  written dest files (snd (Exec.writeFiles env dest files h))
    (fst (Exec.writeFiles env dest files h)).
Proof.
  revert h. induction files as [|f files IH]; intros h.
  - constructor.
  - unfold Exec.writeFiles. rewrite range_err_cons.
    rewrite check_eq. unfold LogOp, util.WriteFile.
    rewrite bind_eq. simpl.
    destruct (env h (WriteFile dest f)) as [v|msg]; simpl.
    + constructor. apply IH.
    + constructor.
  Qed.

(** What [createFiles] does once the temporary directory exists. *)
Lemma createFiles_eq (fs : Filesystem.t) (h : history) :
  Filesystem.Files fs <> [] ->
  let dev := Filesystem.Device fs in
  let format := Filesystem.Format fs in
  let h1 := h ++ [Act (PushPrefix "createFiles")] in
  let td := env h1 (TempDir "" "ignition-files") in
  Exec.createFiles env fs h =
  match td with
  | Fail msg =>
      (Some (Errorf "failed to create temp directory: %v" [AErr (Errno msg)]),
       [Act (PushPrefix "createFiles"); Did (TempDir "" "ignition-files") td;
        Act PopPrefix])
  | Ok mnt =>
      let h2 := h1 ++ [Did (TempDir "" "ignition-files") td] in
      let mr := env h2 (Mount dev mnt format 0 "") in
      match mr with
      | Fail msg =>
          (Some (Errorf "failed to mount device %q at %q: %v"
                   [AStr dev; AStr mnt; AErr (Errno msg)]),
           [Act (PushPrefix "createFiles");
            Did (TempDir "" "ignition-files") td;
            Did (Mount dev mnt format 0 "") mr;
            Did (Remove mnt) (env (h2 ++ [Did (Mount dev mnt format 0 "") mr])
                                (Remove mnt));
            Act PopPrefix])
      | Ok _ =>
          let h3 := h2 ++ [Did (Mount dev mnt format 0 "") mr] in
          let w := Exec.writeFiles env mnt (Filesystem.Files fs) h3 in
          let h4 := h3 ++ snd w in
          let ur := env h4 (Unmount mnt 0) in
          (fst w,
           [Act (PushPrefix "createFiles");
            Did (TempDir "" "ignition-files") td;
            Did (Mount dev mnt format 0 "") mr]
           ++ snd w ++
           [Did (Unmount mnt 0) ur;
            Did (Remove mnt) (env (h4 ++ [Did (Unmount mnt 0) ur]) (Remove mnt));
            Act PopPrefix])
      end
  end.
Proof.
  intros Hne dev format h1 td.
  unfold Exec.createFiles.
  destruct (len (Filesystem.Files fs) =? 0) eqn:E.
  { apply len_zero in E. contradiction. }
  cbv [bind defer check LogOp act ret invoke]. simpl.
  fold h1. fold td.
  destruct td as [mnt|msg] eqn:Etd; [|reflexivity].
  fold dev. fold format.
  destruct (env _ (Mount dev mnt format 0 "")) as [v|msg] eqn:Em; simpl.
  - rewrite <- !app_assoc. simpl.
    destruct (Exec.writeFiles env mnt (Filesystem.Files fs) _) as [e ws].
    simpl. repeat (rewrite <- ?app_assoc; simpl).
    reflexivity.
  - reflexivity.
Qed.

End CreateFiles.

(** A loop, seen from one of its elements: the elements before it, the
    element, the elements after it. *)
Lemma range_err_around {A} (pre post : list A) (x : A)
  (f : A -> M (option error)) (h : history) :
  let before := range_err pre f h in
  let this := f x (h ++ snd before) in
  let after := range_err post f (h ++ snd before ++ snd this) in
  range_err (pre ++ x :: post) f h =
  match fst before with
  | Some err => (Some err, snd before)
  | None =>
      match fst this with
      | Some err => (Some err, snd before ++ snd this)
      | None => (fst after, snd before ++ snd this ++ snd after)
      end
  end.
Proof.
  cbv zeta. rewrite range_err_app.
  destruct (fst (range_err pre f h)); [reflexivity|].
  rewrite range_err_cons.
  destruct (fst (f x (h ++ snd (range_err pre f h)))); cbn [fst snd];
    [reflexivity|].
  now rewrite <- !app_assoc.
Qed.

Lemma calls_nil_no_failure (s : list step) :
  calls s = [] -> existsb failed_step s = false.
Proof.
  induction s as [|[a|c r] s IH]; cbn [calls existsb failed_step orb];
    [reflexivity|exact IH|discriminate].
Qed.

Lemma cleanups_no_failure (s : list step) :
  Forall (fun c => is_cleanup c = true) (calls s) ->
  existsb failed_step s = false.
Proof.
  induction s as [|[a|c r] s IH]; cbn [calls existsb failed_step orb].
  - reflexivity.
  - exact IH.
  - intros H. inversion H as [|c' l Hc Hl]; subst.
    rewrite Hc, (IH Hl). now destruct r.
Qed.

Lemma failure_found (s1 s2 : list step) (c : call) (msg : string) :
  is_cleanup c = false ->
  existsb failed_step (s1 ++ Did c (Fail msg) :: s2) = true.
Proof.
  intros Hc. rewrite existsb_app. cbn [existsb failed_step].
  rewrite Hc. cbn [negb orb]. now rewrite orb_true_r.
Qed.

Lemma written_no_mount (dest : string) (files : list File.t)
  (ws : list step) (e : option error) :
  written dest files ws e ->
  forall source target fstype flags data r,
    ~ In (Did (Mount source target fstype flags data) r) ws.
Proof.
  induction 1; intros source target fstype flags data r Hin.
  - destruct Hin.
  - destruct Hin as [Heq|Hin]; [discriminate|].
    exact (IHwritten _ _ _ _ _ _ Hin).
  - destruct Hin as [Heq|[]]. discriminate.
Qed.

Lemma written_last_failure (dest : string) (files : list File.t)
  (ws : list step) (e : option error) :
  written dest files ws e ->
  forall pre f msg,
    ws = pre ++ [Did (WriteFile dest f) (Fail msg)] ->
    e = Some (Errorf "failed to create file %q: %v"
                [AStr (File.Path f); AErr (Errno msg)]).
Proof.
  induction 1; intros pre f' msg' Hws.
  - destruct pre; discriminate.
  - destruct pre as [|x pre]; cbn [app] in Hws.
    + discriminate.
    + injection Hws as _ Hrest. exact (IHwritten _ _ _ Hrest).
  - destruct pre as [|x pre]; cbn [app] in Hws.
    + injection Hws as <- <-. reflexivity.
    + injection Hws as _ Hrest. destruct pre; discriminate.
Qed.

Section ScopedMount.
Variable env : Env.

(** C2.  Whenever the steps of [createFiles] hold a mount that succeeded,
    it is the mount of the device of the entry at the temporary directory
    just created, and the steps are: that directory created, the mount, the
    writes of the files in order up to the first one that fails, then the
    unmount of the directory attempted, then its removal, then the log
    prefix popped.  So the unmount is attempted on the success exit and on
    the file-write-error exit alike.  The value returned is the one of the
    writes: when the last write failed it is the error of that write,
    whatever the unmount and the removal answer. *)
Theorem createFiles_unmounts_after_mount (fs : Filesystem.t) (h : history)
  (source mnt fstype : string) (flags : Z) (data v : string) :
  In (Did (Mount source mnt fstype flags data) (Ok v))
    (snd (Exec.createFiles env fs h)) ->
  let out := Exec.createFiles env fs h in
  exists ws ur rr,
    snd out =
    [Act (PushPrefix "createFiles");
     Did (TempDir "" "ignition-files") (Ok mnt);
     Did (Mount (Filesystem.Device fs) mnt (Filesystem.Format fs) 0 "")
       (Ok v)]
    ++ ws ++
    [Did (Unmount mnt 0) ur; Did (Remove mnt) rr; Act PopPrefix]
    /\ written mnt (Filesystem.Files fs) ws (fst out)
    /\ (forall pre f msg,
          ws = pre ++ [Did (WriteFile mnt f) (Fail msg)] ->
          fst out =
          Some (Errorf "failed to create file %q: %v"
                  [AStr (File.Path f); AErr (Errno msg)])).
Proof.
  intros Hin out. subst out.
  destruct (Filesystem.Files fs) as [|f0 files] eqn:Ef.
  { unfold Exec.createFiles in Hin. rewrite Ef in Hin. destruct Hin. }
  assert (Hne : Filesystem.Files fs <> []) by (rewrite Ef; discriminate).
  pose proof (createFiles_eq env fs h Hne) as Heq. cbv zeta in Heq.
  rewrite <- Ef. rewrite Heq in Hin |- *. clear Heq.
  destruct (env _ (TempDir "" "ignition-files")) as [mnt0|msg0].
  2:{ cbn [snd] in Hin.
      destruct Hin as [Hx|[Hx|[Hx|[]]]]; discriminate. }
  destruct (env _ (Mount _ mnt0 _ 0 "")) as [v0|msg0].
  2:{ cbn [snd] in Hin.
      destruct Hin as [Hx|[Hx|[Hx|[Hx|[Hx|[]]]]]]; discriminate. }
  cbn [fst snd] in Hin |- *.
  match goal with
  | |- context [Exec.writeFiles env mnt0 (Filesystem.Files fs) ?h3] =>
      pose proof (writeFiles_written env mnt0 (Filesystem.Files fs) h3) as Hw;
      destruct (Exec.writeFiles env mnt0 (Filesystem.Files fs) h3) as [e ws]
  end.
  cbn [fst snd] in *.
  assert (Hmnt : mnt0 = mnt /\ v0 = v).
  { cbn [app] in Hin.
    destruct Hin as [Hx|[Hx|[Hx|Hin]]]; try discriminate.
    - injection Hx as _ Hm _ _ _ Hv. now split.
    - apply in_app_or in Hin. destruct Hin as [Hin|Hin].
      + now elim (written_no_mount _ _ _ _ Hw _ _ _ _ _ _ Hin).
      + destruct Hin as [Hx|[Hx|[Hx|[]]]]; discriminate. }
  destruct Hmnt as [-> ->].
  eexists ws, _, _. split; [reflexivity|]. split; [exact Hw|].
  intros pre f msg Hws. exact (written_last_failure _ _ _ _ Hw _ _ _ Hws).
Qed.

End ScopedMount.

(** The theorem at work: the second write fails and the unmount fails too;
    the unmount and the removal are attempted and the write error is what
    comes back. *)
Lemma createFiles_unmounts_after_mount_witness :
  exists ws ur rr,
    snd (Exec.createFiles write_b_and_unmount_fail fs_two_files []) =
    [Act (PushPrefix "createFiles");
     Did (TempDir "" "ignition-files") (Ok "/tmp/ignition-files1");
     Did (Mount "/dev/sdb1" "/tmp/ignition-files1" "btrfs" 0 "") (Ok "")]
    ++ ws ++
    [Did (Unmount "/tmp/ignition-files1" 0) ur;
     Did (Remove "/tmp/ignition-files1") rr; Act PopPrefix]
    /\ written "/tmp/ignition-files1" (Filesystem.Files fs_two_files) ws
         (fst (Exec.createFiles write_b_and_unmount_fail fs_two_files [])).
Proof.
  destruct (createFiles_unmounts_after_mount write_b_and_unmount_fail
              fs_two_files [] "/dev/sdb1" "/tmp/ignition-files1" "btrfs" 0
              "" "" (or_intror (or_intror (or_introl eq_refl))))
    as (ws & ur & rr & Hs & Hw & _).
  exists ws, ur, rr. split; [exact Hs|exact Hw].
Defined.

(** When the mount call returns an error there is no successful mount to
    release: [createFiles] returns the mount error and removes the
    directory, and no unmount is attempted. *)
Lemma createFiles_mount_failure_no_unmount :
  Exec.createFiles mount_fails fs_hostname [] =
  (Some (Errorf "failed to mount device %q at %q: %v"
           [AStr "/dev/sda1"; AStr "/tmp/ignition-files1";
            AErr (Errno "invalid argument")]),
   [Act (PushPrefix "createFiles");
    Did (TempDir "" "ignition-files") (Ok "/tmp/ignition-files1");
    Did (Mount "/dev/sda1" "/tmp/ignition-files1" "ext4" 0 "")
      (Fail "invalid argument");
    Did (Remove "/tmp/ignition-files1") (Ok "");
    Act PopPrefix])
  /\ existsb is_unmount (snd (Exec.createFiles mount_fails fs_hostname []))
     = false.
Proof. split; reflexivity. Qed.

(** The same run as in the witness above, spelled out: the write of [/b]
    fails, the unmount fails as well, and the error returned is the one of
    the write. *)
Lemma createFiles_write_error_kept :
  Exec.createFiles write_b_and_unmount_fail fs_two_files [] =
  (Some (Errorf "failed to create file %q: %v"
           [AStr "/b"; AErr (Errno "no space left on device")]),
   [Act (PushPrefix "createFiles");
    Did (TempDir "" "ignition-files") (Ok "/tmp/ignition-files1");
    Did (Mount "/dev/sdb1" "/tmp/ignition-files1" "btrfs" 0 "") (Ok "");
    Did (WriteFile "/tmp/ignition-files1"
           {| File.Path := "/a"; File.Contents := "1";
              File.Mode := 420; File.Uid := 0; File.Gid := 0 |}) (Ok "");
    Did (WriteFile "/tmp/ignition-files1"
           {| File.Path := "/b"; File.Contents := "2";
              File.Mode := 420; File.Uid := 0; File.Gid := 0 |})
      (Fail "no space left on device");
    Did (Unmount "/tmp/ignition-files1" 0) (Fail "device or resource busy");
    Did (Remove "/tmp/ignition-files1") (Ok "");
    Act PopPrefix]).
Proof. reflexivity. Qed.

(** ** Partitions *)


Section Partitions.
Variable env : Env.

Lemma partition_loop_body (disks : list Disk.t) (h : history) :
  range_err disks
    (fun dev => check (LogOp (Exec.partitionDisk env dev)) (fun err => err)
                  (ret None)) h
  = range_err disks (Exec.partitionDisk env) h.
Proof.
  apply range_err_ext. intros dev h'. rewrite check_eq. unfold LogOp.
  destruct (Exec.partitionDisk env dev h') as [[err|] s]; cbn [ret fst snd];
    [reflexivity|now rewrite app_nil_r].
Qed.

(** C3, as amended.  For a disk with no wipe requested and no partition
    configured, the partitioning of that disk opens the device with [Begin]
    and calls [Commit], and does nothing else: no wipe and no partition
    creation.  In the partition phase, for every configuration that holds
    such a disk, once the wait has succeeded and the disks before it have
    been partitioned without error, the steps are exactly: the wait, the
    steps of the disks before it, [Begin] and [Commit] for this disk, then,
    if that commit succeeded, the steps of the disks after it; a failed
    commit ends the phase with the commit failure. *)
Theorem partitionDisk_begin_commit_only (dev : Disk.t) :
  Disk.WipeTable dev = false ->
  Disk.Partitions dev = [] ->
  (forall h,
     let r := env (h ++ [Act (Begin (Disk.Device dev))])
                (Commit (Disk.Device dev)) in
     Exec.partitionDisk env dev h =
     (match r with
      | Ok _ => None
      | Fail msg => Some (Errorf "commit failure: %v" [AErr (Errno msg)])
      end,
      [Act (Begin (Disk.Device dev)); Did (Commit (Disk.Device dev)) r]))
  /\ (forall config pre post h,
        Storage.Disks (Config.Storage config) = pre ++ dev :: post ->
        let devs := map Disk.Device (pre ++ dev :: post) in
        let w := env (h ++ [Act (PushPrefix "createPartitions")])
                   (WaitOnDevices devs "disks") in
        let h1 := h ++ [Act (PushPrefix "createPartitions");
                        Did (WaitOnDevices devs "disks") w] in
        let before := range_err pre (Exec.partitionDisk env) h1 in
        let r := env (h1 ++ snd before ++ [Act (Begin (Disk.Device dev))])
                   (Commit (Disk.Device dev)) in
        let this := [Act (Begin (Disk.Device dev));
                     Did (Commit (Disk.Device dev)) r] in
        let after :=
          range_err post (Exec.partitionDisk env)
            (h1 ++ snd before ++ this) in
        Exec.createPartitions env config h =
        match w with
        | Fail msg =>
            (Some (Errorf "failed to wait on %s devs: %v"
                     [AStr "disks"; AErr (Errno msg)]),
             [Act (PushPrefix "createPartitions");
              Did (WaitOnDevices devs "disks") w;
              Act PopPrefix])
        | Ok _ =>
            match fst before with
            | Some err =>
                (Some err,
                 [Act (PushPrefix "createPartitions");
                  Did (WaitOnDevices devs "disks") w]
                 ++ snd before ++ [Act PopPrefix])
            | None =>
                match r with
                | Fail msg =>
                    (Some (Errorf "commit failure: %v" [AErr (Errno msg)]),
                     [Act (PushPrefix "createPartitions");
                      Did (WaitOnDevices devs "disks") w]
                     ++ snd before ++ this ++ [Act PopPrefix])
                | Ok _ =>
                    (fst after,
                     [Act (PushPrefix "createPartitions");
                      Did (WaitOnDevices devs "disks") w]
                     ++ snd before ++ this ++ snd after ++ [Act PopPrefix])
                end
            end
        end).
Proof.
  intros Hw Hp.
  assert (Hdisk : forall h,
    let r := env (h ++ [Act (Begin (Disk.Device dev))])
               (Commit (Disk.Device dev)) in
    Exec.partitionDisk env dev h =
    (match r with
     | Ok _ => None
     | Fail msg => Some (Errorf "commit failure: %v" [AErr (Errno msg)])
     end,
     [Act (Begin (Disk.Device dev)); Did (Commit (Disk.Device dev)) r])).
  { intros h r. unfold Exec.partitionDisk. rewrite Hw, Hp.
    cbv [bind check act ret invoke range_do]. simpl.
    rewrite !app_nil_r. subst r.
    destruct (env _ (Commit (Disk.Device dev))); reflexivity. }
  split; [exact Hdisk|].
  intros config pre post h Hdisks devs w h1 before r this after.
  unfold Exec.createPartitions. rewrite Hdisks.
  destruct (len (pre ++ dev :: post) =? 0) eqn:E.
  { apply len_zero in E. destruct pre; discriminate. }
  rewrite range_append_singleton. fold devs.
  rewrite bind_eq, defer_eq, check_eq.
  rewrite partition_loop_body.
  unfold Exec.waitOnDevices. rewrite check_eq. unfold LogOp.
  rewrite bind_eq. cbn [act ret invoke fst snd app]. fold w.
  destruct w as [v|msg] eqn:Ew; cbn [err_of fst snd app]; [|reflexivity].
  rewrite <- app_assoc. cbn [app]. fold h1.
  pose proof (range_err_around pre post dev (Exec.partitionDisk env) h1)
    as Har.
  cbv zeta in Har. fold before in Har. rewrite Har. clear Har.
  destruct (fst before) as [err|]; cbn [fst snd]; [reflexivity|].
  rewrite Hdisk. cbn [fst snd].
  rewrite <- app_assoc. fold r. fold this.
  destruct r as [v'|msg'] eqn:Er; cbn [fst snd].
  - fold after. now rewrite <- !app_assoc.
  - now rewrite <- !app_assoc.
Qed.

End Partitions.

(** The theorem on the disk [/dev/sda] with nothing configured, as the
    only disk, the system answering every call with success. *)
Lemma partitionDisk_begin_commit_only_witness :
  Disk.WipeTable disk_untouched = false /\
  Disk.Partitions disk_untouched = [] /\
  Exec.partitionDisk all_ok disk_untouched [] =
  (None, [Act (Begin "/dev/sda"); Did (Commit "/dev/sda") (Ok "")]) /\
  Exec.createPartitions all_ok (config_of_disks [disk_untouched]) [] =
  (None,
   [Act (PushPrefix "createPartitions");
    Did (WaitOnDevices ["/dev/sda"] "disks") (Ok "");
    Act (Begin "/dev/sda");
    Did (Commit "/dev/sda") (Ok "");
    Act PopPrefix]).
Proof.
  split; [reflexivity|]. split; [reflexivity|].
  split.
  - exact (proj1 (partitionDisk_begin_commit_only all_ok disk_untouched
                    eq_refl eq_refl) []).
  - exact (proj2 (partitionDisk_begin_commit_only all_ok disk_untouched
                    eq_refl eq_refl)
             (config_of_disks [disk_untouched]) [] [] [] eq_refl).
Defined.

(** C3 as stated fails: with the single disk [/dev/sda], no wipe and no
    partitions, the partition phase opens the device and commits. *)
Lemma createPartitions_untouched_disk_is_opened :
  Exec.createPartitions all_ok (config_of_disks [disk_untouched]) [] =
  (None,
   [Act (PushPrefix "createPartitions");
    Did (WaitOnDevices ["/dev/sda"] "disks") (Ok "");
    Act (Begin "/dev/sda");
    Did (Commit "/dev/sda") (Ok "");
    Act PopPrefix])
  /\ existsb (uses_partition_table "/dev/sda")
       (snd (Exec.createPartitions all_ok (config_of_disks [disk_untouched]) []))
     = true.
Proof. split; reflexivity. Qed.

(** ** Waiting for the devices *)

Section Waiting.
Variable env : Env.

(** The common shape of the three storage phases. *)
Lemma waits_first_shape {A} (l : list A) (prefix ctxt : string)
  (devs : list string) (body : M (option error)) :
  waits_first env prefix ctxt devs (is_nil l)
    (if len l =? 0 then ret None
     else
       act (PushPrefix prefix) ;;
       defer (act PopPrefix)
         (check (Exec.waitOnDevices env devs ctxt) (fun err => err) body)).
Proof.
  intros h. destruct l as [|x l]; [reflexivity|].
  rewrite len_cons. cbn [is_nil].
  rewrite bind_eq, defer_eq, check_eq.
  unfold Exec.waitOnDevices. rewrite check_eq. unfold LogOp.
  rewrite bind_eq. cbn [act ret invoke fst snd app].
  destruct (env (h ++ [Act (PushPrefix prefix)]) (WaitOnDevices devs ctxt))
    as [v|msg] eqn:Er; cbn [err_of fst snd app].
  - eexists. split; [reflexivity|]. split; [discriminate|].
    intros _ _ _. now exists v.
  - eexists. split; [reflexivity|]. split.
    + intros msg' [= <-]. split; reflexivity.
    + intros s [<-|[<-|[<-|[]]]]; discriminate.
Qed.

(** C4.  Each of the partition, RAID and filesystem phases, when it has
    anything configured, starts by waiting for exactly the devices of its
    entries (the disks' devices; the members of all arrays; the
    filesystems' devices).  When the wait fails the phase returns that
    error, wrapped, and has performed no mutating step; and any mutating
    step of the phase comes after a wait that succeeded.  A phase with
    nothing configured does nothing. *)
Theorem phases_wait_before_mutating (config : Config.t) :
  let disks := Storage.Disks (Config.Storage config) in
  let arrays := Storage.Arrays (Config.Storage config) in
  let filesystems := Storage.Filesystems (Config.Storage config) in
  waits_first env "createPartitions" "disks"
    (map Disk.Device disks) (is_nil disks)
    (Exec.createPartitions env config)
  /\ waits_first env "createRaids" "raids"
       (flat_map Raid.Devices arrays) (is_nil arrays)
       (Exec.createRaids env config)
  /\ waits_first env "createFilesystems" "filesystems"
       (map Filesystem.Device filesystems) (is_nil filesystems)
       (Exec.createFilesystems env config).
Proof.
  intros disks arrays filesystems. split; [|split].
  - unfold Exec.createPartitions. fold disks.
    rewrite range_append_singleton. apply waits_first_shape.
  - unfold Exec.createRaids. fold arrays.
    rewrite range_append_flat. apply waits_first_shape.
  - unfold Exec.createFilesystems. fold filesystems.
    rewrite range_append_singleton. apply waits_first_shape.
Qed.

End Waiting.

(** ** Filesystems *)

Section Filesystems.
Variable env : Env.

(** C5.  An entry to initialise whose format is neither [btrfs] nor [ext4]
    fails with the unsupported-format error without a single step: no
    formatter command and no mount.  In the phase, whatever comes after the
    wait is the work on the entries before that one, and nothing else; the
    phase always fails, and with the unsupported-format error whenever the
    wait and the entries before succeed. *)
Theorem unsupported_format_fails_before_any_step (fs : Filesystem.t) :
  Filesystem.Initialize fs = true ->
  Filesystem.Format fs <> "btrfs" ->
  Filesystem.Format fs <> "ext4" ->
  let unsupported :=
    Errorf "unsupported filesystem format: %q" [AStr (Filesystem.Format fs)] in
  (forall h, Exec.createFilesystem env fs h = (Some unsupported, []))
  /\ (forall config pre post h,
        Storage.Filesystems (Config.Storage config) = pre ++ fs :: post ->
        let devs := map Filesystem.Device (pre ++ fs :: post) in
        let r := env (h ++ [Act (PushPrefix "createFilesystems")])
                   (WaitOnDevices devs "filesystems") in
        let before :=
          range_err pre (Exec.createFilesystem env)
            (h ++ [Act (PushPrefix "createFilesystems");
                   Did (WaitOnDevices devs "filesystems") r]) in
        Exec.createFilesystems env config h =
        match r with
        | Fail msg =>
            (Some (Errorf "failed to wait on %s devs: %v"
                     [AStr "filesystems"; AErr (Errno msg)]),
             [Act (PushPrefix "createFilesystems");
              Did (WaitOnDevices devs "filesystems") r;
              Act PopPrefix])
        | Ok _ =>
            (Some (match fst before with
                   | Some err => err
                   | None => unsupported
                   end),
             [Act (PushPrefix "createFilesystems");
              Did (WaitOnDevices devs "filesystems") r]
             ++ snd before ++ [Act PopPrefix])
        end).
Proof.
  intros Hinit Hb He unsupported.
  assert (Hentry : forall h,
            Exec.createFilesystem env fs h = (Some unsupported, [])).
  { intros h. unfold Exec.createFilesystem, Exec.mkfsCommand.
    rewrite Hinit.
    apply String.eqb_neq in Hb, He. rewrite Hb, He.
    reflexivity. }
  split; [exact Hentry|].
  intros config pre post h Hfs devs r before.
  unfold Exec.createFilesystems. rewrite Hfs.
  destruct (len (pre ++ fs :: post) =? 0) eqn:E.
  { apply len_zero in E. destruct pre; discriminate. }
  rewrite range_append_singleton. fold devs.
  rewrite bind_eq, defer_eq, check_eq.
  unfold Exec.waitOnDevices. rewrite check_eq. unfold LogOp.
  rewrite bind_eq. cbn [act ret invoke fst snd app]. fold r.
  destruct r as [v|msg] eqn:Er; cbn [err_of fst snd app]; [|reflexivity].
  rewrite range_err_app. rewrite <- app_assoc. cbn [app]. fold before.
  destruct (fst before) as [err|] eqn:Eb; cbn [fst snd].
  - reflexivity.
  - rewrite range_err_cons. rewrite Hentry. cbn [fst snd].
    now rewrite app_nil_r.
Qed.

End Filesystems.

(** The theorem on the scenario of the specification: format [zfs] to be
    initialised, as the only filesystem. *)
Lemma unsupported_format_fails_before_any_step_witness :
  Filesystem.Initialize fs_zfs = true /\
  Filesystem.Format fs_zfs <> "btrfs" /\
  Filesystem.Format fs_zfs <> "ext4" /\
  Exec.createFilesystems all_ok (config_of_filesystems [fs_zfs]) [] =
  (Some (Errorf "unsupported filesystem format: %q" [AStr "zfs"]),
   [Act (PushPrefix "createFilesystems");
    Did (WaitOnDevices ["/dev/sdc1"] "filesystems") (Ok "");
    Act PopPrefix]).
Proof.
  split; [reflexivity|]. split; [discriminate|]. split; [discriminate|].
  exact (proj2 (unsupported_format_fails_before_any_step all_ok fs_zfs
                  eq_refl ltac:(discriminate) ltac:(discriminate))
           (config_of_filesystems [fs_zfs]) [] [] [] eq_refl).
Defined.

(** ** RAID arrays *)



Section Raids.
Variable env : Env.


End Raids.


(** ** Formatting *)

Section AroundAnEntry.
Variable env : Env.

(** The filesystem phase, seen from one of its entries. *)
Lemma createFilesystems_around (config : Config.t)
  (pre post : list Filesystem.t) (fs : Filesystem.t) (h : history) :
  Storage.Filesystems (Config.Storage config) = pre ++ fs :: post ->
  let devs := map Filesystem.Device (pre ++ fs :: post) in
  let w := env (h ++ [Act (PushPrefix "createFilesystems")])
             (WaitOnDevices devs "filesystems") in
  let h1 := h ++ [Act (PushPrefix "createFilesystems");
                  Did (WaitOnDevices devs "filesystems") w] in
  let before := range_err pre (Exec.createFilesystem env) h1 in
  let this := Exec.createFilesystem env fs (h1 ++ snd before) in
  let after :=
    range_err post (Exec.createFilesystem env)
      (h1 ++ snd before ++ snd this) in
  Exec.createFilesystems env config h =
  match w with
  | Fail msg =>
      (Some (Errorf "failed to wait on %s devs: %v"
               [AStr "filesystems"; AErr (Errno msg)]),
       [Act (PushPrefix "createFilesystems");
        Did (WaitOnDevices devs "filesystems") w;
        Act PopPrefix])
  | Ok _ =>
      match fst before with
      | Some err =>
          (Some err,
           [Act (PushPrefix "createFilesystems");
            Did (WaitOnDevices devs "filesystems") w]
           ++ snd before ++ [Act PopPrefix])
      | None =>
          match fst this with
          | Some err =>
              (Some err,
               [Act (PushPrefix "createFilesystems");
                Did (WaitOnDevices devs "filesystems") w]
               ++ snd before ++ snd this ++ [Act PopPrefix])
          | None =>
              (fst after,
               [Act (PushPrefix "createFilesystems");
                Did (WaitOnDevices devs "filesystems") w]
               ++ snd before ++ snd this ++ snd after ++ [Act PopPrefix])
          end
      end
  end.
Proof.
  intros Hfs devs w h1 before this after.
  unfold Exec.createFilesystems. rewrite Hfs.
  destruct (len (pre ++ fs :: post) =? 0) eqn:E.
  { apply len_zero in E. destruct pre; discriminate. }
  rewrite range_append_singleton. fold devs.
  rewrite bind_eq, defer_eq, check_eq.
  unfold Exec.waitOnDevices. rewrite check_eq. unfold LogOp.
  rewrite bind_eq. cbn [act ret invoke fst snd app]. fold w.
  destruct w as [v|msg] eqn:Ew; cbn [err_of fst snd app]; [|reflexivity].
  rewrite <- app_assoc. cbn [app]. fold h1.
  pose proof (range_err_around pre post fs (Exec.createFilesystem env) h1)
    as Har.
  cbv zeta in Har. fold before in Har. fold this in Har. fold after in Har.
  rewrite Har. clear Har.
  destruct (fst before) as [err|]; cbn [fst snd]; [reflexivity|].
  destruct (fst this) as [err|]; cbn [fst snd];
    now rewrite <- !app_assoc.
Qed.

End AroundAnEntry.

Section Formatting.
Variable env : Env.

(** C8.  For an entry to initialise with format [btrfs] or [ext4], the
    formatter command is [/sbin/mkfs.btrfs] or [/sbin/mkfs.ext4] and its
    arguments are the configured options, then the force flag of that
    formatter ([--force] for btrfs, [-F] for ext4), then the device; that
    command is the first step of the work on the entry.  In the filesystem
    phase, for every configuration that holds the entry, once the wait has
    succeeded and the entries before it have been dealt with without error,
    the next step is that command with these arguments; when it fails, the
    phase ends there with the error that names the formatter, its failure
    and its arguments. *)
Theorem mkfs_arguments (fs : Filesystem.t) :
  Filesystem.Initialize fs = true ->
  Filesystem.Format fs = "btrfs" \/ Filesystem.Format fs = "ext4" ->
  let btrfs := String.eqb (Filesystem.Format fs) "btrfs" in
  let mkfs := if btrfs then "/sbin/mkfs.btrfs" else "/sbin/mkfs.ext4" in
  let force := if btrfs then "--force" else "-F" in
  let args := Filesystem.Options fs ++ [force] ++ [Filesystem.Device fs] in
  Exec.mkfsCommand fs = inr (mkfs, args)
  /\ (forall h, exists rest,
        snd (Exec.createFilesystem env fs h) =
        Did (Command mkfs args) (env h (Command mkfs args)) :: rest)
  /\ (forall config pre post h,
        Storage.Filesystems (Config.Storage config) = pre ++ fs :: post ->
        let devs := map Filesystem.Device (pre ++ fs :: post) in
        let w := env (h ++ [Act (PushPrefix "createFilesystems")])
                   (WaitOnDevices devs "filesystems") in
        let h1 := h ++ [Act (PushPrefix "createFilesystems");
                        Did (WaitOnDevices devs "filesystems") w] in
        let before := range_err pre (Exec.createFilesystem env) h1 in
        let r := env (h1 ++ snd before) (Command mkfs args) in
        (exists v, w = Ok v) ->
        fst before = None ->
        exists rest,
          snd (Exec.createFilesystems env config h) =
          [Act (PushPrefix "createFilesystems");
           Did (WaitOnDevices devs "filesystems") w]
          ++ snd before ++ Did (Command mkfs args) r :: rest
          /\ (forall msg,
                r = Fail msg ->
                fst (Exec.createFilesystems env config h) =
                Some (Errorf "failed to run %q: %v %v"
                        [AStr mkfs; AErr (Errno msg); AStrs args])
                /\ rest = [Act PopPrefix])).
Proof.
  intros Hinit Hfmt btrfs mkfs force args.
  assert (Hcmd : Exec.mkfsCommand fs = inr (mkfs, args)).
  { unfold Exec.mkfsCommand. subst args force mkfs btrfs.
    destruct Hfmt as [-> | ->]; cbn; now rewrite <- app_assoc. }
  assert (Hentry : forall h,
            let r := env h (Command mkfs args) in
            exists rest,
              snd (Exec.createFilesystem env fs h) =
              Did (Command mkfs args) r :: rest
              /\ (forall msg,
                    r = Fail msg ->
                    fst (Exec.createFilesystem env fs h) =
                    Some (Errorf "failed to run %q: %v %v"
                            [AStr mkfs; AErr (Errno msg); AStrs args])
                    /\ rest = [])).
  { intros h r. unfold Exec.createFilesystem. rewrite Hinit, Hcmd.
    rewrite check_eq, check_eq. unfold LogCmd. rewrite bind_eq.
    cbn [invoke ret fst snd app]. fold r.
    destruct r as [v|msg]; cbn [err_of fst snd app].
    - eexists. split; [reflexivity|]. intros msg H. discriminate.
    - eexists. split; [reflexivity|]. intros msg' [= <-]. split; reflexivity. }
  split; [exact Hcmd|]. split.
  { intros h. destruct (Hentry h) as (rest & Hs & _).
    exists rest. exact Hs. }
  intros config pre post h Hfs devs w h1 before r [v Hv] Hbefore.
  pose proof (createFilesystems_around env config pre post fs h Hfs) as Har.
  cbv zeta in Har. fold devs in Har. fold w in Har. fold h1 in Har.
  fold before in Har. rewrite Hv, Hbefore in Har.
  destruct (Hentry (h1 ++ snd before)) as (rest & Hs & Hfail).
  fold r in Hs, Hfail.
  rewrite Har. clear Har. rewrite Hv.
  destruct (fst (Exec.createFilesystem env fs (h1 ++ snd before)))
    as [err|] eqn:Ethis; cbn [fst snd]; rewrite Hs.
  - eexists. split; [cbn [app]; reflexivity|].
    intros msg Hmsg. destruct (Hfail msg Hmsg) as [He ->].
    split; [exact He|reflexivity].
  - eexists. split; [cbn [app]; reflexivity|].
    intros msg Hmsg. destruct (Hfail msg Hmsg) as [He _]. discriminate.
Qed.

End Formatting.

(** The theorem on the scenario of the specification: ext4 on [/dev/sda1]
    without options is formatted by [mkfs.ext4 -F /dev/sda1], as the first
    step of the phase after the wait. *)
Lemma mkfs_arguments_witness :
  Filesystem.Initialize fs_hostname = true /\
  (Filesystem.Format fs_hostname = "btrfs" \/
   Filesystem.Format fs_hostname = "ext4") /\
  Exec.mkfsCommand fs_hostname = inr ("/sbin/mkfs.ext4", ["-F"; "/dev/sda1"])
  /\ exists rest,
       snd (Exec.createFilesystems all_ok
              (config_of_filesystems [fs_hostname]) []) =
       [Act (PushPrefix "createFilesystems");
        Did (WaitOnDevices ["/dev/sda1"] "filesystems") (Ok "");
        Did (Command "/sbin/mkfs.ext4" ["-F"; "/dev/sda1"]) (Ok "")]
       ++ rest.
Proof.
  split; [reflexivity|]. split; [right; reflexivity|].
  pose proof (mkfs_arguments all_ok fs_hostname eq_refl (or_intror eq_refl))
    as H.
  cbv zeta in H. destruct H as (Hcmd & _ & Hphase).
  split; [exact Hcmd|].
  destruct (Hphase (config_of_filesystems [fs_hostname]) [] [] [] eq_refl
              (ex_intro _ "" eq_refl) eq_refl) as (rest & Hs & _).
  exists rest. exact Hs.
Defined.

(** ** Filesystems that are not to be initialised *)



Section NotInitialised.
Variable env : Env.





End NotInitialised.


(** ** Errors accounted for by the steps *)

Section Accounts.
Variable B : call -> string -> error -> Prop.
Variable Q : error -> Prop.

Lemma accounts_ret_none : accounts B Q (ret None).
Proof. intros h. reflexivity. Qed.

Lemma accounts_ret_some (e : error) : Q e -> accounts B Q (ret (Some e)).
Proof. intros He h. left. split; [exact He|reflexivity]. Qed.

Lemma accounts_invoke (env : Env) (c : call) :
  is_cleanup c = false ->
  (forall msg, B c msg (Errno msg)) ->
  accounts B Q (r <- invoke env c ;; ret (err_of r)).
Proof.
  intros Hc Hb h. rewrite bind_eq. cbn [invoke ret fst snd app].
  destruct (env h c) as [v|msg]; cbn [err_of]; [reflexivity|].
  right. exists [], c, msg, [].
  repeat split; [exact Hc|constructor|apply Hb].
Qed.

Lemma accounts_after {A} (m : M A) (k : M (option error)) :
  (forall h, calls (snd (m h)) = []) ->
  accounts B Q k -> accounts B Q (m ;; k).
Proof.
  intros Hm Hk h. rewrite bind_eq. cbn [fst snd].
  pose proof (calls_nil_no_failure _ (Hm h)) as Hq.
  specialize (Hk (h ++ snd (m h))).
  destruct (fst (k (h ++ snd (m h)))) as [e|].
  - destruct Hk as [[He Hn]|(s1 & c & msg & s2 & Hs & Hc & Hn & Hall & Hb)].
    + left. split; [exact He|]. now rewrite existsb_app, Hq, Hn.
    + right. exists (snd (m h) ++ s1), c, msg, s2.
      rewrite Hs, <- app_assoc. repeat split; try assumption.
      now rewrite existsb_app, Hq, Hn.
  - now rewrite existsb_app, Hq, Hk.
Qed.

Lemma accounts_defer {C} (cleanup : M C) (body : M (option error)) :
  accounts B Q body ->
  (forall h, Forall (fun c => is_cleanup c = true) (calls (snd (cleanup h)))) ->
  accounts B Q (defer cleanup body).
Proof.
  intros Hb Hc h. rewrite defer_eq. cbn [fst snd].
  pose proof (Hc (h ++ snd (body h))) as Hall.
  pose proof (cleanups_no_failure _ Hall) as Hq.
  set (sc := snd (cleanup (h ++ snd (body h)))) in *. clearbody sc.
  specialize (Hb h).
  destruct (fst (body h)) as [e|].
  - destruct Hb as [[He Hn]|(s1 & c & msg & s2 & Hs & Hcl & Hn & Hall2 & Hbl)].
    + left. split; [exact He|]. now rewrite existsb_app, Hn, Hq.
    + right. exists s1, c, msg, (s2 ++ sc).
      rewrite Hs, <- app_assoc. cbn [app]. repeat split; try assumption.
      rewrite calls_app. apply Forall_app. split; assumption.
  - now rewrite existsb_app, Hb, Hq.
Qed.

Lemma accounts_range_err {A} (l : list A) (f : A -> M (option error)) :
  (forall x, In x l -> accounts B Q (f x)) -> accounts B Q (range_err l f).
Proof.
  induction l as [|x l IH]; intros Hf; [apply accounts_ret_none|].
  intros h. rewrite range_err_cons.
  pose proof (Hf x (or_introl eq_refl) h) as Hx.
  destruct (fst (f x h)) as [e|]; cbn [fst snd]; [exact Hx|].
  assert (Hl : accounts B Q (range_err l f))
    by (apply IH; intros y Hy; apply Hf; now right).
  specialize (Hl (h ++ snd (f x h))).
  destruct (fst (range_err l f (h ++ snd (f x h)))) as [e|].
  - destruct Hl as [[He Hn]|(s1 & c & msg & s2 & Hs & Hc & Hn & Hall & Hb)].
    + left. split; [exact He|]. now rewrite existsb_app, Hx, Hn.
    + right. exists (snd (f x h) ++ s1), c, msg, s2.
      rewrite Hs, <- app_assoc. repeat split; try assumption.
      now rewrite existsb_app, Hx, Hn.
  - now rewrite existsb_app, Hx, Hl.
Qed.

End Accounts.

Lemma accounts_check (B1 B : call -> string -> error -> Prop)
  (Q1 Q : error -> Prop) (m : M (option error)) (wrap : error -> error)
  (k : M (option error)) :
  accounts B1 Q1 m ->
  (forall c msg e, B1 c msg e -> B c msg (wrap e)) ->
  (forall e, Q1 e -> Q (wrap e)) ->
  accounts B Q k ->
  accounts B Q (check m wrap k).
Proof.
  intros Hm Hb Hq Hk h. rewrite check_eq.
  specialize (Hm h).
  destruct (fst (m h)) as [err|]; cbn [fst snd].
  - destruct Hm as [[He Hn]|(s1 & c & msg & s2 & Hs & Hc & Hn & Hall & Hbl)].
    + left. split; [now apply Hq|exact Hn].
    + right. exists s1, c, msg, s2. repeat split; try assumption.
      now apply Hb.
  - specialize (Hk (h ++ snd (m h))).
    destruct (fst (k (h ++ snd (m h)))) as [e|].
    + destruct Hk as [[He Hn]|(s1 & c & msg & s2 & Hs & Hc & Hn & Hall & Hbl)].
      * left. split; [exact He|]. now rewrite existsb_app, Hm, Hn.
      * right. exists (snd (m h) ++ s1), c, msg, s2.
        rewrite Hs, <- app_assoc. repeat split; try assumption.
        now rewrite existsb_app, Hm, Hn.
    + now rewrite existsb_app, Hm, Hk.
Qed.

Lemma accounts_check_same (B : call -> string -> error -> Prop)
  (Q : error -> Prop) (m k : M (option error)) :
  accounts B Q m -> accounts B Q k ->
  accounts B Q (check m (fun err => err) k).
Proof.
  intros Hm Hk. apply (accounts_check B B Q Q); auto.
Qed.

Lemma accounts_weaken (B1 B : call -> string -> error -> Prop)
  (Q1 Q : error -> Prop) (m : M (option error)) :
  accounts B1 Q1 m ->
  (forall c msg e, B1 c msg e -> B c msg e) ->
  (forall e, Q1 e -> Q e) ->
  accounts B Q m.
Proof.
  intros Hm Hb Hq h. specialize (Hm h).
  destruct (fst (m h)) as [e|]; [|exact Hm].
  destruct Hm as [[He Hn]|(s1 & c & msg & s2 & Hs & Hc & Hn & Hall & Hbl)].
  - left. split; [now apply Hq|exact Hn].
  - right. exists s1, c, msg, s2. repeat split; try assumption.
    now apply Hb.
Qed.

(** A prefix pushed, and popped by a deferred call. *)
Lemma accounts_prefixed (B : call -> string -> error -> Prop)
  (Q : error -> Prop) (prefix : string) (body : M (option error)) :
  accounts B Q body ->
  accounts B Q (act (PushPrefix prefix) ;; defer (act PopPrefix) body).
Proof.
  intros Hb. apply accounts_after; [reflexivity|].
  apply accounts_defer; [exact Hb|]. intros h. constructor.
Qed.

(** When no error comes without a failed call, the value is decided by the
    steps: no error exactly when no call other than a cleanup failed. *)
Lemma accounts_decides (B : call -> string -> error -> Prop)
  (m : M (option error)) (h : history) :
  accounts B no_quiet_error m ->
  (fst (m h) = None <-> existsb failed_step (snd (m h)) = false).
Proof.
  intros Hm. specialize (Hm h).
  destruct (fst (m h)) as [e|].
  - split; [discriminate|]. intros Hn.
    destruct Hm as [[[] _]|(s1 & c & msg & s2 & Hs & Hc & _)].
    rewrite Hs, (failure_found s1 s2 c msg Hc) in Hn. discriminate.
  - split; [intros _; exact Hm|reflexivity].
Qed.

Lemma accounts_invoke_bind (B : call -> string -> error -> Prop)
  (Q : error -> Prop) (env : Env) (c : call)
  (k : result -> M (option error)) :
  is_cleanup c = false ->
  (forall v, accounts B Q (k (Ok v))) ->
  (forall msg, exists e,
      (forall h, k (Fail msg) h = (Some e, [])) /\ B c msg e) ->
  accounts B Q (bind (invoke env c) k).
Proof.
  intros Hc Hok Hfail h. rewrite bind_eq. cbn [invoke fst snd].
  destruct (env h c) as [v|msg].
  - specialize (Hok v (h ++ [Did c (Ok v)])).
    destruct (fst (k (Ok v) (h ++ [Did c (Ok v)]))) as [e|].
    + destruct Hok as [[He Hn]|(s1 & c' & msg & s2 & Hs & Hc' & Hn & Hall & Hb)].
      * left. split; [exact He|]. cbn [app existsb failed_step orb].
        exact Hn.
      * right. exists (Did c (Ok v) :: s1), c', msg, s2.
        rewrite Hs. repeat split; try assumption.
    + exact Hok.
  - destruct (Hfail msg) as (e & Hk & Hb). rewrite Hk. cbn [fst snd].
    right. exists [], c, msg, [].
    repeat split; [exact Hc|constructor|exact Hb].
Qed.

Lemma accounts_invoke_wrap (B : call -> string -> error -> Prop)
  (Q : error -> Prop) (env : Env) (c : call) (wrap : error -> error)
  (k : M (option error)) :
  is_cleanup c = false ->
  (forall msg, B c msg (wrap (Errno msg))) ->
  accounts B Q k ->
  accounts B Q (check (r <- invoke env c ;; ret (err_of r)) wrap k).
Proof.
  intros Hc Hb Hk.
  apply (accounts_check (fun c' msg e => c' = c /\ e = Errno msg) B
           no_quiet_error Q).
  - apply accounts_invoke; [exact Hc|]. intros msg. now split.
  - intros c' msg e [-> ->]. apply Hb.
  - intros e [].
  - exact Hk.
Qed.

(** ** Units *)

Lemma performs_ret (h : history) : performs (ret None) [] h.
Proof. split; [now exists []|reflexivity]. Qed.

Lemma performs_check (m k : M (option error)) (e1 e2 : list call) :
  (forall h, performs m e1 h) ->
  (forall h, performs k e2 h) ->
  forall h, performs (check m (fun err => err) k) (e1 ++ e2) h.
Proof.
  intros Hm Hk h. unfold performs. rewrite check_eq.
  destruct (Hm h) as [[rest Hrest] Hall].
  destruct (fst (m h)) as [err|]; cbn [fst snd].
  - split; [|discriminate].
    exists (rest ++ e2). rewrite Hrest. now rewrite app_assoc.
  - specialize (Hall eq_refl).
    destruct (Hk (h ++ snd (m h))) as [[rest' Hrest'] Hall'].
    rewrite calls_app, Hall. split.
    + exists rest'. rewrite Hrest' at 1. now rewrite app_assoc.
    + intros Hnone. now rewrite (Hall' Hnone).
Qed.

Section Units.
Variable D : util.Decls.
Variable env : Env.
Variable DestDir : string.

Lemma performs_write (f : File.t) (h : history) :
  performs (check (LogOp (util.WriteFile env DestDir f)) (fun err => err)
              (ret None))
    [WriteFile DestDir f] h.
Proof.
  unfold performs. rewrite check_eq. unfold LogOp, util.WriteFile.
  rewrite bind_eq. cbn [invoke ret fst snd app].
  destruct (env h (WriteFile DestDir f)); cbn [err_of fst snd calls app];
    split; try reflexivity; now exists [].
Qed.

Lemma performs_dropins (unit : SystemdUnit.t) (l : list SystemdUnitDropIn.t)
  (h : history) :
  performs
    (range_err l
       (fun dropin =>
          if String.eqb (SystemdUnitDropIn.Contents dropin) ""
          then ret None
          else
            let f := util.FileFromUnitDropin D unit dropin in
            check (LogOp (util.WriteFile env DestDir f)) (fun err => err)
              (ret None)))
    (map (fun dropin =>
            WriteFile DestDir (util.FileFromUnitDropin D unit dropin))
       (filter (fun dropin =>
                  negb (String.eqb (SystemdUnitDropIn.Contents dropin) ""))
          l))
    h.
Proof.
  revert h. induction l as [|d l IH]; intros h.
  - apply performs_ret.
  - unfold performs. rewrite range_err_cons. cbn [filter].
    destruct (String.eqb (SystemdUnitDropIn.Contents d) "");
      cbn [negb ret fst snd app].
    + rewrite app_nil_r. apply IH.
    + cbv zeta.
      destruct (performs_write (util.FileFromUnitDropin D unit d) h)
        as [[rest Hrest] Hall].
      destruct (fst (check _ _ _ h)) as [err|]; cbn [fst snd map].
      * split; [|discriminate].
        exists (rest ++ map (fun dropin =>
                               WriteFile DestDir
                                 (util.FileFromUnitDropin D unit dropin))
                          (filter (fun dropin =>
                                     negb (String.eqb
                                             (SystemdUnitDropIn.Contents dropin)
                                             "")) l)).
        rewrite app_assoc, <- Hrest. reflexivity.
      * specialize (Hall eq_refl). rewrite calls_app, Hall.
        destruct (IH (h ++ snd (check
                                  (LogOp (util.WriteFile env DestDir
                                            (util.FileFromUnitDropin D unit d)))
                                  (fun err => err) (ret None) h)))
          as [[rest' Hrest'] Hall'].
        split.
        -- exists rest'. cbn [app]. f_equal. exact Hrest'.
        -- intros Hnone. cbn [app]. f_equal. exact (Hall' Hnone).
Qed.

Lemma performs_writeSystemdUnit (unit : SystemdUnit.t) (h : history) :
  performs (Exec.writeSystemdUnit D env DestDir unit)
    (dropin_writes D DestDir unit ++ unit_write D DestDir unit) h.
Proof.
  unfold Exec.writeSystemdUnit, LogOp at 1.
  apply performs_check.
  - intros h'. apply performs_dropins.
  - intros h'. unfold unit_write.
    destruct (String.eqb (SystemdUnit.Contents unit) "").
    + apply performs_ret.
    + apply performs_write.
Qed.

Lemma performs_enable (unit : SystemdUnit.t) (h : history) :
  performs
    (if SystemdUnit.Enable unit
     then LogOp (util.EnableUnit D env DestDir unit)
     else ret None)
    (enable_calls D DestDir unit) h.
Proof.
  unfold enable_calls. destruct (SystemdUnit.Enable unit);
    [|apply performs_ret].
  unfold performs, LogOp, util.EnableUnit, util.mkdirForFile,
    util.Sprintf_enable.
  cbv [check defer bind invoke ret].
  destruct (env h (MkdirForFile _)); cbn [err_of fst snd calls app].
  - destruct (env _ (OpenFile _ _ _)); cbn [err_of fst snd calls app].
    + destruct (env _ (WriteString _ _)); cbn [err_of fst snd calls app];
        (split; [now exists []|reflexivity]).
    + split; [eexists; reflexivity|discriminate].
  - split; [eexists; reflexivity|discriminate].
Qed.

Lemma performs_mask (unit : SystemdUnit.t) (h : history) :
  performs
    (if SystemdUnit.Mask unit
     then LogOp (util.MaskUnit D env DestDir unit)
     else ret None)
    (mask_calls D DestDir unit) h.
Proof.
  unfold mask_calls. destruct (SystemdUnit.Mask unit);
    [|apply performs_ret].
  unfold performs, LogOp, util.MaskUnit, util.mkdirForFile.
  cbv [check bind invoke ret].
  destruct (env h (MkdirForFile _)); cbn [err_of fst snd calls app].
  - destruct (env _ (Symlink _ _)); cbn [err_of fst snd calls app];
      (split; [now exists []|reflexivity||discriminate]).
  - split; [eexists; reflexivity|discriminate].
Qed.

Lemma performs_createSystemdUnit (unit : SystemdUnit.t) (h : history) :
  performs (Exec.createSystemdUnit D env DestDir unit)
    (systemd_unit_calls D DestDir unit) h.
Proof.
  unfold Exec.createSystemdUnit, systemd_unit_calls.
  rewrite app_assoc.
  apply performs_check; [apply performs_writeSystemdUnit|].
  intros h1. apply performs_check; [apply performs_enable|].
  intros h2.
  rewrite <- (app_nil_r (mask_calls D DestDir unit)).
  apply performs_check; [apply performs_mask|apply performs_ret].
Qed.

Lemma accounts_write (f : File.t) :
  accounts bare_blame no_quiet_error
    (check (LogOp (util.WriteFile env DestDir f)) (fun err => err)
       (ret None)).
Proof.
  unfold LogOp, util.WriteFile.
  apply accounts_invoke_wrap;
    [reflexivity|intros msg; reflexivity|apply accounts_ret_none].
Qed.

Lemma accounts_writeSystemdUnit (unit : SystemdUnit.t) :
  accounts bare_blame no_quiet_error
    (Exec.writeSystemdUnit D env DestDir unit).
Proof.
  unfold Exec.writeSystemdUnit, LogOp at 1.
  apply accounts_check_same.
  - apply accounts_range_err. intros dropin _.
    destruct (String.eqb (SystemdUnitDropIn.Contents dropin) "");
      [apply accounts_ret_none|apply accounts_write].
  - destruct (String.eqb (SystemdUnit.Contents unit) "");
      [apply accounts_ret_none|apply accounts_write].
Qed.

Lemma accounts_EnableUnit (unit : SystemdUnit.t) :
  accounts bare_blame no_quiet_error (util.EnableUnit D env DestDir unit).
Proof.
  unfold util.EnableUnit, util.mkdirForFile.
  apply accounts_invoke_wrap; [reflexivity|intros msg; reflexivity|].
  apply accounts_invoke_bind; [reflexivity| |].
  - intros v. cbn [err_of]. apply accounts_defer.
    + apply accounts_invoke; [reflexivity|intros msg; reflexivity].
    + intros h. repeat constructor.
  - intros msg. exists (Errno msg). split; [reflexivity|reflexivity].
Qed.

Lemma accounts_MaskUnit (unit : SystemdUnit.t) :
  accounts bare_blame no_quiet_error (util.MaskUnit D env DestDir unit).
Proof.
  unfold util.MaskUnit, util.mkdirForFile.
  apply accounts_invoke_wrap; [reflexivity|intros msg; reflexivity|].
  apply accounts_invoke; [reflexivity|intros msg; reflexivity].
Qed.

Lemma accounts_createSystemdUnit (unit : SystemdUnit.t) :
  accounts bare_blame no_quiet_error
    (Exec.createSystemdUnit D env DestDir unit).
Proof.
  unfold Exec.createSystemdUnit.
  apply accounts_check_same; [apply accounts_writeSystemdUnit|].
  apply accounts_check_same.
  { destruct (SystemdUnit.Enable unit);
      [apply accounts_EnableUnit|apply accounts_ret_none]. }
  apply accounts_check_same; [|apply accounts_ret_none].
  destruct (SystemdUnit.Mask unit);
    [apply accounts_MaskUnit|apply accounts_ret_none].
Qed.


End Units.

(** A unit without contents, to enable and to mask, with one drop-in that
    has contents and one that has none: the drop-in with contents is
    written, no unit file is written, and the unit is enabled and masked. *)
Lemma createSystemdUnit_empty_contents :
  calls (snd (Exec.createSystemdUnit decls0 all_ok "/sysroot"
                unit_empty_contents [])) =
  [ WriteFile "/sysroot"
      {| File.Path := "/etc/systemd/system/foo.service.d/a.conf";
         File.Contents := "[Service]";
         File.Mode := 420; File.Uid := 0; File.Gid := 0 |};
    MkdirForFile "/sysroot/etc/systemd/system-preset/20-ignition.preset";
    OpenFile "/sysroot/etc/systemd/system-preset/20-ignition.preset" 0x442 420;
    WriteString "/sysroot/etc/systemd/system-preset/20-ignition.preset"
      (String.append "enable foo.service" util.newline);
    Close "/sysroot/etc/systemd/system-preset/20-ignition.preset";
    MkdirForFile "/sysroot/etc/systemd/system/foo.service";
    Symlink "/dev/null" "/sysroot/etc/systemd/system/foo.service" ].
Proof. reflexivity. Qed.

(** ** The two pipelines *)

Lemma eqm_refl {A} (m : M A) : eqm m m.
Proof. intros h; reflexivity. Qed.

Lemma eqm_trans {A} (m1 m2 m3 : M A) : eqm m1 m2 -> eqm m2 m3 -> eqm m1 m3.
Proof. intros H1 H2 h. now rewrite H1. Qed.

Lemma eqm_sym {A} (m1 m2 : M A) : eqm m1 m2 -> eqm m2 m1.
Proof. intros H h. now rewrite H. Qed.

Lemma bind_cong {A B} (m m' : M A) (f g : A -> M B) :
  eqm m m' -> (forall a, eqm (f a) (g a)) -> eqm (bind m f) (bind m' g).
Proof.
  intros Hm Hf h. rewrite !bind_eq, Hm, Hf. reflexivity.
Qed.

Lemma bind_ret_l {A B} (a : A) (f : A -> M B) : eqm (bind (ret a) f) (f a).
Proof.
  intros h. rewrite bind_eq. cbn [ret fst snd app]. rewrite app_nil_r.
  now destruct (f a h).
Qed.

Lemma bind_assoc {A B C} (m : M A) (f : A -> M B) (g : B -> M C) :
  eqm (bind (bind m f) g) (bind m (fun a => bind (f a) g)).
Proof.
  intros h. rewrite !bind_eq. cbn [fst snd].
  rewrite ?bind_eq. cbn [fst snd]. now rewrite <- ?app_assoc.
Qed.

Lemma check_id (m : M (option error)) :
  eqm (check m (fun err => err) (ret None)) m.
Proof.
  intros h. rewrite check_eq. destruct (m h) as [[err|] s]; cbn [fst snd ret].
  - reflexivity.
  - now rewrite app_nil_r.
Qed.

Lemma check_invoke (env : Env) (c : call) (wrap : error -> error)
  (k : M (option error)) :
  eqm (check (r <- invoke env c ;; ret (err_of r)) wrap k)
      (r <- invoke env c ;;
       match err_of r with
       | Some err => ret (Some (wrap err))
       | None => k
       end).
Proof.
  intros h. unfold check.
  rewrite (bind_assoc _ _ _ h).
  apply bind_cong; [apply eqm_refl|]. intros r.
  apply (bind_ret_l (err_of r)).
Qed.

Lemma check_cong (m m' : M (option error)) (wrap : error -> error)
  (k k' : M (option error)) :
  eqm m m' -> eqm k k' -> eqm (check m wrap k) (check m' wrap k').
Proof.
  intros Hm Hk. unfold check. apply bind_cong; [exact Hm|].
  intros [err|]; [apply eqm_refl|exact Hk].
Qed.

Lemma defer_cong {A B} (cleanup : M B) (body body' : M A) :
  eqm body body' -> eqm (defer cleanup body) (defer cleanup body').
Proof.
  intros Hb. unfold defer. apply bind_cong; [exact Hb|].
  intros a. apply eqm_refl.
Qed.

Lemma range_err_cong {A} (l : list A) (f g : A -> M (option error)) :
  (forall x, eqm (f x) (g x)) -> eqm (range_err l f) (range_err l g).
Proof. intros H h. apply range_err_ext. exact H. Qed.

Section TwoPipelines.
Variable env : Env.

Lemma stage_waitOnDevices (devs : list string) (ctxt : string) :
  eqm (Stage.waitOnDevices env devs ctxt) (Exec.waitOnDevices env devs ctxt).
Proof. apply eqm_refl. Qed.

Lemma stage_createPartitions (config : Config.t) :
  eqm (Stage.createPartitions env config) (Exec.createPartitions env config).
Proof.
  unfold Stage.createPartitions, Exec.createPartitions.
  destruct (len _ =? 0); [apply eqm_refl|].
  apply bind_cong; [apply eqm_refl|]. intros _.
  apply defer_cong. cbv zeta.
  apply (check_cong _ _ (fun err => err)); [apply eqm_refl|].
  apply range_err_cong. intros dev.
  apply eqm_sym. eapply eqm_trans; [apply check_id|].
  unfold LogOp, Exec.partitionDisk.
  apply bind_cong; [apply eqm_refl|]. intros _.
  apply bind_cong; [apply eqm_refl|]. intros _.
  apply bind_cong; [apply eqm_refl|]. intros _.
  apply check_invoke.
Qed.

Lemma stage_createRaids (config : Config.t) :
  eqm (Stage.createRaids env config) (Exec.createRaids env config).
Proof. apply eqm_refl. Qed.

Lemma stage_createFiles (fs : Filesystem.t) :
  eqm (Stage.createFiles env fs) (Exec.createFiles env fs).
Proof. apply eqm_refl. Qed.

Lemma stage_createFilesystems (config : Config.t) :
  eqm (Stage.createFilesystems env config)
      (Exec.createFilesystems env config).
Proof.
  unfold Stage.createFilesystems, Exec.createFilesystems.
  destruct (len _ =? 0); [apply eqm_refl|].
  apply bind_cong; [apply eqm_refl|]. intros _.
  apply defer_cong. cbv zeta.
  apply (check_cong _ _ (fun err => err)); [apply eqm_refl|].
  apply range_err_cong. intros fs.
  unfold Exec.createFilesystem, Exec.mkfsCommand.
  apply (check_cong _ _ (fun err => err)); [|apply eqm_refl].
  destruct (Filesystem.Initialize fs); [|apply eqm_refl].
  destruct (String.eqb (Filesystem.Format fs) "btrfs"); [apply eqm_refl|].
  destruct (String.eqb (Filesystem.Format fs) "ext4"); apply eqm_refl.
Qed.

End TwoPipelines.

Section Confined.
Context {A : Type} (P : call -> Prop).

Lemma confined_ret (a : A) : confined P (ret a).
Proof. intros h. constructor. Qed.

Lemma confined_act (a : action) : confined P (act a).
Proof. intros h. constructor. Qed.

Lemma confined_invoke (env : Env) (c : call) : P c -> confined P (invoke env c).
Proof. intros Hc h. repeat constructor. exact Hc. Qed.

Lemma confined_bind {B} (m : M B) (f : B -> M A) :
  confined P m -> (forall b, confined P (f b)) -> confined P (bind m f).
Proof.
  intros Hm Hf h. rewrite bind_eq. cbn [snd]. rewrite calls_app.
  apply Forall_app. split; [apply Hm|apply Hf].
Qed.

Lemma confined_defer {B} (cleanup : M B) (body : M A) :
  confined P body -> confined P cleanup -> confined P (defer cleanup body).
Proof.
  intros Hb Hc h. rewrite defer_eq. cbn [snd]. rewrite calls_app.
  apply Forall_app. split; [apply Hb|apply Hc].
Qed.

End Confined.

Lemma confined_range_do {A} (P : call -> Prop) (l : list A)
  (f : A -> M unit) :
  (forall x, confined P (f x)) -> confined P (range_do l f).
Proof.
  intros Hf. induction l as [|x l IH]; [apply confined_ret|].
  cbn [range_do]. apply confined_bind; [apply Hf|intros _; exact IH].
Qed.

Lemma confined_range_err {A} (P : call -> Prop) (l : list A)
  (f : A -> M (option error)) :
  (forall x, In x l -> confined P (f x)) -> confined P (range_err l f).
Proof.
  induction l as [|x l IH]; intros Hf; [apply confined_ret|].
  cbn [range_err]. apply confined_bind; [apply Hf; now left|].
  intros [err|]; [apply confined_ret|].
  apply IH. intros y Hy. apply Hf. now right.
Qed.

Ltac confine :=
  repeat match goal with
         | |- confined _ (ret _) => apply confined_ret
         | |- confined _ (act _) => apply confined_act
         | |- confined _ (invoke _ _) => apply confined_invoke
         | |- confined _ (bind _ _) => apply confined_bind; [|intros ?]
         | |- confined _ (defer _ _) => apply confined_defer
         | |- confined _ (LogOp _) => unfold LogOp
         | |- confined _ (LogCmd _ _ _) => unfold LogCmd
         | |- confined _ (range_do _ _) => apply confined_range_do; intros ?
         | |- confined _ (if ?b then _ else _) => destruct b
         | |- confined _ (match ?x with _ => _ end) => destruct x
         | |- storage_call _ _ => exact I
         end.

Section StageRun.
Variable env : Env.

Lemma stage_Run_confined (config : Config.t) :
  confined (storage_call config) (Stage.Run env config).
Proof.
  unfold Stage.Run, Stage.createPartitions, Stage.createRaids,
    Stage.createFilesystems, Stage.waitOnDevices.
  cbv zeta. confine.
  - apply confined_range_err. intros dev _. confine.
  - apply confined_range_err. intros md _. confine.
  - apply confined_range_err. intros fs Hfs.
    unfold Stage.createFiles, Stage.Util_WriteFile. cbv zeta. confine.
    apply confined_range_err. intros f Hf. confine.
    cbn [storage_call]. exists fs. split; assumption.
Qed.

End StageRun.


(** * Further properties of the code *)

(** ** Nothing to do *)

Section NothingToDo.
Variable D : util.Decls.
Variable env : Env.
Variable DestDir : string.

(** X1.  On a configuration without disks, arrays, filesystems and units,
    [Run] of either struct returns [true] without a single step, whatever
    the system would answer: no wait, no log prefix, no call. *)
Theorem Run_nothing_configured (config : Config.t) (h : history) :
  Storage.Disks (Config.Storage config) = [] ->
  Storage.Arrays (Config.Storage config) = [] ->
  Storage.Filesystems (Config.Storage config) = [] ->
  Config.SystemdUnits config = [] ->
  Config.NetworkdUnits config = [] ->
  Exec.Run D env DestDir config h = (true, [])
  /\ Stage.Run env config h = (true, []).
Proof.
  intros Hd Ha Hf Hs Hn.
  unfold Exec.Run, Stage.Run, Exec.createPartitions, Exec.createRaids,
    Exec.createFilesystems, Exec.createUnits, Stage.createPartitions,
    Stage.createRaids, Stage.createFilesystems.
  rewrite Hd, Ha, Hf, Hs, Hn. split; reflexivity.
Qed.

(** X2.  An entry without files is never mounted: [createFiles] returns
    no error without a step (no temporary directory, no mount, no unmount),
    so that the work on the entry is at most the formatter command. *)
Theorem createFilesystem_without_files (fs : Filesystem.t) (h : history) :
  Filesystem.Files fs = [] ->
  Exec.createFiles env fs h = (None, [])
  /\ (Filesystem.Initialize fs = false ->
      Exec.createFilesystem env fs h = (None, []))
  /\ (snd (Exec.createFilesystem env fs h) = []
      \/ exists mkfs args r,
           Exec.mkfsCommand fs = inr (mkfs, args)
           /\ snd (Exec.createFilesystem env fs h)
              = [Did (Command mkfs args) r]).
Proof.
  intros Hfiles.
  assert (Hcf : forall h', Exec.createFiles env fs h' = (None, [])).
  { intros h'. unfold Exec.createFiles. rewrite Hfiles. reflexivity. }
  split; [apply Hcf|].
  unfold Exec.createFilesystem. split.
  - intros ->. rewrite check_eq. cbn [ret fst snd app].
    rewrite check_eq, Hcf. reflexivity.
  - destruct (Filesystem.Initialize fs).
    + destruct (Exec.mkfsCommand fs) as [err|[mkfs args]] eqn:Ecmd.
      * left. rewrite check_eq. reflexivity.
      * right. exists mkfs, args, (env h (Command mkfs args)).
        split; [reflexivity|].
        rewrite check_eq, check_eq. unfold LogCmd. rewrite bind_eq.
        cbn [invoke ret fst snd app].
        destruct (env h (Command mkfs args)); cbn [err_of fst snd app];
          [|reflexivity].
        rewrite check_eq, Hcf. reflexivity.
    + left. rewrite check_eq. cbn [ret fst snd app].
      rewrite check_eq, Hcf. reflexivity.
Qed.

(** X3.  When the temporary directory cannot be created, [createFiles]
    returns that error, wrapped, and has attempted neither a mount nor an
    unmount nor a removal. *)
Theorem createFiles_tempdir_failure (fs : Filesystem.t) (h : history)
  (msg : string) :
  Filesystem.Files fs <> [] ->
  env (h ++ [Act (PushPrefix "createFiles")]) (TempDir "" "ignition-files")
  = Fail msg ->
  Exec.createFiles env fs h =
  (Some (Errorf "failed to create temp directory: %v" [AErr (Errno msg)]),
   [Act (PushPrefix "createFiles");
    Did (TempDir "" "ignition-files") (Fail msg);
    Act PopPrefix]).
Proof.
  intros Hne Htd.
  pose proof (createFiles_eq env fs h Hne) as Heq. cbv zeta in Heq.
  rewrite Htd in Heq. exact Heq.
Qed.

End NothingToDo.

(** The theorem on the empty configuration, with a system on which every
    commit would fail. *)
Lemma Run_nothing_configured_witness :
  Exec.Run decls0 commit_fails "/sysroot" config_empty [] = (true, [])
  /\ Stage.Run commit_fails config_empty [] = (true, []).
Proof.
  exact (Run_nothing_configured decls0 commit_fails "/sysroot" config_empty []
           eq_refl eq_refl eq_refl eq_refl eq_refl).
Defined.

(** The theorem on an entry to format that has no file. *)
Lemma createFilesystem_without_files_witness :
  Filesystem.Files fs_no_files = [] /\
  Exec.createFiles all_ok fs_no_files [] = (None, []).
Proof.
  split; [reflexivity|].
  exact (proj1 (createFilesystem_without_files all_ok fs_no_files []
                  eq_refl)).
Defined.

(** The theorem on the scenario of the specification, when no temporary
    directory can be created. *)
Lemma createFiles_tempdir_failure_witness :
  Filesystem.Files fs_hostname <> [] /\
  Exec.createFiles tempdir_fails fs_hostname [] =
  (Some (Errorf "failed to create temp directory: %v"
           [AErr (Errno "read-only file system")]),
   [Act (PushPrefix "createFiles");
    Did (TempDir "" "ignition-files") (Fail "read-only file system");
    Act PopPrefix]).
Proof.
  split; [discriminate|].
  exact (createFiles_tempdir_failure tempdir_fails fs_hostname []
           "read-only file system" ltac:(discriminate) eq_refl).
Defined.

(** ** What the steps of a computation never are *)

Section Never.
Context {A : Type} (p : step -> bool).




End Never.







Ltac unfold_storage :=
  unfold Exec.createPartitions, Exec.createRaids, Exec.createFilesystems,
    Exec.createFilesystem, Exec.createFiles, Exec.writeFiles,
    Exec.createUnits, Exec.createSystemdUnit, Exec.writeSystemdUnit,
    Exec.writeNetworkdUnit, Exec.partitionDisk, Exec.waitOnDevices,
    util.EnableUnit, util.MaskUnit, util.mkdirForFile, util.WriteFile.

(** ** The critical log line *)

Section CritLine.
Variable D : util.Decls.
Variable env : Env.
Variable DestDir : string.



End CritLine.

(** ** The logger's prefix stack *)

Lemma prefix_depth_app (n : nat) (s1 s2 : list step) :
  prefix_depth n (s1 ++ s2) =
  match prefix_depth n s1 with
  | Some k => prefix_depth k s2
  | None => None
  end.
Proof.
  revert n. induction s1 as [|[a|c r] s1 IH]; intros n; cbn [app prefix_depth].
  - reflexivity.
  - destruct a; try apply IH. destruct n; [reflexivity|apply IH].
  - apply IH.
Qed.

Section Balanced.
Context {A : Type}.

Lemma balanced_ret (a : A) : balanced (ret a).
Proof. intros h n. reflexivity. Qed.

Lemma balanced_bind {B} (m : M B) (f : B -> M A) :
  balanced m -> (forall b, balanced (f b)) -> balanced (bind m f).
Proof.
  intros Hm Hf h n. rewrite bind_eq. cbn [snd].
  rewrite prefix_depth_app, Hm. apply Hf.
Qed.

Lemma balanced_defer {B} (cleanup : M B) (body : M A) :
  balanced body -> balanced cleanup -> balanced (defer cleanup body).
Proof.
  intros Hb Hc h n. rewrite defer_eq. cbn [snd].
  rewrite prefix_depth_app, Hb. apply Hc.
Qed.

(** A prefix pushed, and popped by a deferred call. *)
Lemma balanced_prefixed (prefix : string) (body : M A) :
  balanced body ->
  balanced (act (PushPrefix prefix) ;; defer (act PopPrefix) body).
Proof.
  intros Hb h n. rewrite bind_eq, defer_eq. cbn [act fst snd app prefix_depth].
  rewrite prefix_depth_app, Hb. reflexivity.
Qed.

End Balanced.

Lemma balanced_act (a : action) :
  (forall p, a <> PushPrefix p) -> a <> PopPrefix -> balanced (act a).
Proof.
  intros Hpush Hpop h n. destruct a; try reflexivity.
  - now elim (Hpush prefix).
  - now elim Hpop.
Qed.

Lemma balanced_invoke (env : Env) (c : call) : balanced (invoke env c).
Proof. intros h n. reflexivity. Qed.

Lemma balanced_check (m : M (option error)) (wrap : error -> error)
  (k : M (option error)) :
  balanced m -> balanced k -> balanced (check m wrap k).
Proof.
  intros Hm Hk. unfold check. apply balanced_bind; [exact Hm|].
  intros [err|]; [apply balanced_ret|exact Hk].
Qed.

Lemma balanced_range_do {A} (l : list A) (f : A -> M unit) :
  (forall x, balanced (f x)) -> balanced (range_do l f).
Proof.
  intros Hf. induction l as [|x l IH]; [apply balanced_ret|].
  cbn [range_do]. apply balanced_bind; [apply Hf|intros _; exact IH].
Qed.

Lemma balanced_range_err {A} (l : list A) (f : A -> M (option error)) :
  (forall x, balanced (f x)) -> balanced (range_err l f).
Proof.
  intros Hf. induction l as [|x l IH]; [apply balanced_ret|].
  cbn [range_err]. apply balanced_bind; [apply Hf|].
  intros [err|]; [apply balanced_ret|exact IH].
Qed.

Ltac balance :=
  repeat match goal with
         | |- balanced (ret _) => apply balanced_ret
         | |- balanced (act (PushPrefix _) ;; defer (act PopPrefix) _) =>
             apply balanced_prefixed
         | |- balanced (act _) =>
             apply balanced_act; [intros ?|]; discriminate
         | |- balanced (invoke _ _) => apply balanced_invoke
         | |- balanced (bind _ _) => apply balanced_bind; [|intros ?]
         | |- balanced (defer _ _) => apply balanced_defer
         | |- balanced (check _ _ _) => apply balanced_check
         | |- balanced (LogOp _) => unfold LogOp
         | |- balanced (LogCmd _ _ _) => unfold LogCmd
         | |- balanced (range_do _ _) => apply balanced_range_do; intros ?
         | |- balanced (range_err _ _) => apply balanced_range_err; intros ?
         | |- balanced (if ?b then _ else _) => destruct b
         | |- balanced (match ?x with _ => _ end) => destruct x
         | |- balanced (let _ := _ in _) => cbv zeta
         end.

Section PrefixStack.
Variable D : util.Decls.
Variable env : Env.
Variable DestDir : string.

(** X5.  Every prefix pushed on the logger is popped again, on every exit
    path: after [createFiles], after each phase and after [Run], of either
    struct, the prefix stack is as deep as before, and at no moment is a
    prefix popped that was not pushed. *)
Theorem prefix_stack_balanced (config : Config.t) (fs : Filesystem.t) :
  balanced (Exec.createFiles env fs)
  /\ balanced (Exec.createPartitions env config)
  /\ balanced (Exec.createRaids env config)
  /\ balanced (Exec.createFilesystems env config)
  /\ balanced (Exec.createUnits D env DestDir config)
  /\ balanced (Exec.Run D env DestDir config)
  /\ balanced (Stage.Run env config).
Proof.
  repeat split.
  - unfold_storage. balance.
  - unfold_storage. balance.
  - unfold_storage. balance.
  - unfold_storage. balance.
  - unfold_storage. balance.
  - unfold Exec.Run. unfold_storage. balance.
  - unfold Stage.Run, Stage.createPartitions, Stage.createRaids,
      Stage.createFilesystems, Stage.createFiles, Stage.waitOnDevices,
      Stage.Util_WriteFile.
    balance.
Qed.

End PrefixStack.

(** ** The scoped-mount protocol *)

Lemma scope_run_app (st : scope) (s1 s2 : list step) :
  scope_run st (s1 ++ s2) =
  match scope_run st s1 with
  | Some st' => scope_run st' s2
  | None => None
  end.
Proof.
  revert st. induction s1 as [|x s1 IH]; intros st; cbn [app scope_run].
  - reflexivity.
  - destruct (scope_step st x); [apply IH|reflexivity].
Qed.

Lemma scope_run_written (dest : string) (files : list File.t)
  (ws : list step) (e : option error) :
  written dest files ws e -> scope_run (Mounted dest) ws = Some (Mounted dest).
Proof.
  induction 1; cbn [scope_run scope_step]; rewrite ?String.eqb_refl;
    auto.
Qed.

Section ScopedMountProtocol.
Variable env : Env.

Lemma createFiles_scope_run (fs : Filesystem.t) (h : history) :
  scope_run Idle (snd (Exec.createFiles env fs h)) = Some Idle.
Proof.
  destruct (Filesystem.Files fs) as [|f files] eqn:Ef.
  - unfold Exec.createFiles. rewrite Ef. reflexivity.
  - assert (Hne : Filesystem.Files fs <> []) by (rewrite Ef; discriminate).
    pose proof (createFiles_eq env fs h Hne) as Heq. cbv zeta in Heq.
    rewrite Heq. clear Heq.
    destruct (env _ (TempDir "" "ignition-files")) as [mnt|msg];
      [|reflexivity].
    destruct (env _ (Mount _ mnt _ 0 "")) as [v|msg].
    + cbn [snd app scope_run scope_step]. rewrite String.eqb_refl.
      rewrite scope_run_app.
      rewrite (scope_run_written _ _ _ _ (writeFiles_written env mnt _ _)).
      cbn [scope_run scope_step]. rewrite String.eqb_refl.
      cbn [scope_run scope_step]. rewrite String.eqb_refl. reflexivity.
    + cbn [snd app scope_run scope_step]. rewrite String.eqb_refl.
      cbn [scope_run scope_step]. rewrite String.eqb_refl. reflexivity.
Qed.

Lemma createFilesystem_scope_run (fs : Filesystem.t) (h : history) :
  scope_run Idle (snd (Exec.createFilesystem env fs h)) = Some Idle.
Proof.
  unfold Exec.createFilesystem. rewrite check_eq.
  assert (Hfiles : forall h',
            scope_run Idle
              (snd (check (Exec.createFiles env fs)
                      (fun err =>
                         Errorf "failed to create files %q: %v"
                           [AStr (Filesystem.Device fs); AErr err])
                      (ret None) h')) = Some Idle).
  { intros h'. rewrite check_eq.
    pose proof (createFiles_scope_run fs h') as Hm.
    destruct (fst (Exec.createFiles env fs h')); cbn [ret fst snd];
      rewrite ?app_nil_r; exact Hm. }
  destruct (Filesystem.Initialize fs).
  - destruct (Exec.mkfsCommand fs) as [err|[mkfs args]].
    + reflexivity.
    + rewrite check_eq. unfold LogCmd. rewrite bind_eq.
      cbn [invoke ret fst snd app].
      destruct (env h (Command mkfs args)); cbn [err_of fst snd app];
        [|reflexivity].
      cbn [scope_run scope_step]. apply Hfiles.
  - cbn [ret fst snd app]. apply Hfiles.
Qed.

Lemma range_err_scope_run {A} (l : list A) (f : A -> M (option error)) :
  (forall x h, scope_run Idle (snd (f x h)) = Some Idle) ->
  forall h, scope_run Idle (snd (range_err l f h)) = Some Idle.
Proof.
  intros Hf. induction l as [|x l IH]; intros h; [reflexivity|].
  rewrite range_err_cons.
  destruct (fst (f x h)); cbn [snd]; [apply Hf|].
  rewrite scope_run_app, Hf. apply IH.
Qed.

(** X6.  The steps of the filesystem phase, of either struct, follow the
    scoped-mount protocol from start to end, whatever the system answers.
    A mount is attempted only on a temporary directory that has just been
    created and on which no mount was attempted.  Files are written only to
    a directory whose mount succeeded and whose unmount has not yet been
    attempted.  After a successful mount, exactly one unmount of that
    directory is attempted, and the directory is removed only after that
    attempt; after a failed mount the directory is removed without an
    unmount attempt.  The wait, the formatter commands and the creation of
    a temporary directory happen only when no directory is outstanding, so
    that the next entry is taken up only after the removal of the previous
    directory has been attempted; and none is outstanding when the phase
    returns.  The protocol is one of attempts: an unmount or a removal that
    fails is not retried. *)
Theorem filesystems_follow_mount_protocol (config : Config.t) (h : history) :
  scope_run Idle (snd (Exec.createFilesystems env config h)) = Some Idle
  /\ scope_run Idle (snd (Stage.createFilesystems env config h)) = Some Idle.
Proof.
  assert (H : scope_run Idle (snd (Exec.createFilesystems env config h))
              = Some Idle).
  { unfold Exec.createFilesystems.
    destruct (len _ =? 0); [reflexivity|].
    rewrite bind_eq, defer_eq, check_eq.
    unfold Exec.waitOnDevices. rewrite check_eq. unfold LogOp.
    rewrite bind_eq. cbn [act ret invoke fst snd app].
    destruct (env _ (WaitOnDevices _ "filesystems"));
      cbn [err_of fst snd app]; [|reflexivity].
    cbn [scope_run scope_step].
    rewrite scope_run_app.
    rewrite (range_err_scope_run _ _ createFilesystem_scope_run).
    reflexivity. }
  split; [exact H|].
  rewrite (stage_createFilesystems env config h). exact H.
Qed.

End ScopedMountProtocol.

(** Two entries, and a system on which every unmount fails: the phase
    returns no error, and the second device is mounted after the failed
    unmount of the first, once the first directory has been removed. *)
Lemma filesystems_after_failed_unmount :
  calls (snd (Exec.createFilesystems write_b_and_unmount_fail
                (config_of_filesystems [fs_second; fs_second]) [])) =
  [ WaitOnDevices ["/dev/sdc1"; "/dev/sdc1"] "filesystems";
    TempDir "" "ignition-files";
    Mount "/dev/sdc1" "/tmp/ignition-files1" "ext4" 0 "";
    WriteFile "/tmp/ignition-files1"
      {| File.Path := "/c"; File.Contents := "3";
         File.Mode := 420; File.Uid := 0; File.Gid := 0 |};
    Unmount "/tmp/ignition-files1" 0;
    Remove "/tmp/ignition-files1";
    TempDir "" "ignition-files";
    Mount "/dev/sdc1" "/tmp/ignition-files1" "ext4" 0 "";
    WriteFile "/tmp/ignition-files1"
      {| File.Path := "/c"; File.Contents := "3";
         File.Mode := 420; File.Uid := 0; File.Gid := 0 |};
    Unmount "/tmp/ignition-files1" 0;
    Remove "/tmp/ignition-files1" ]
  /\ fst (Exec.createFilesystems write_b_and_unmount_fail
            (config_of_filesystems [fs_second; fs_second]) []) = None.
Proof. split; reflexivity. Qed.

(** ** Fail fast *)

Lemma fail_fast_run_app (failed : bool) (s1 s2 : list step) :
  fail_fast_run failed (s1 ++ s2) =
  match fail_fast_run failed s1 with
  | Some failed' => fail_fast_run failed' s2
  | None => None
  end.
Proof.
  revert failed.
  induction s1 as [|[a|c r] s1 IH]; intros failed;
    cbn [app fail_fast_run].
  - reflexivity.
  - apply IH.
  - destruct failed; [destruct (is_cleanup c); [apply IH|reflexivity]|].
    apply IH.
Qed.

Lemma fail_fast_run_failed (s : list step) (failed : bool) :
  fail_fast_run true s = Some failed ->
  failed = true /\ Forall (fun c => is_cleanup c = true) (calls s).
Proof.
  induction s as [|[a|c r] s IH]; cbn [fail_fast_run calls].
  - intros [= <-]. split; constructor.
  - exact IH.
  - destruct (is_cleanup c) eqn:Ec; [|discriminate].
    intros H. destruct (IH H) as [-> Hall]. split; [reflexivity|].
    constructor; assumption.
Qed.

(** What the checker means: after a failed call that is not a cleanup, only
    cleanups are called, and the final state records the failure. *)
Lemma fail_fast_run_split (s1 s2 : list step) (c : call) (msg : string)
  (failed : bool) :
  fail_fast_run false (s1 ++ Did c (Fail msg) :: s2) = Some failed ->
  is_cleanup c = false ->
  failed = true /\ Forall (fun c' => is_cleanup c' = true) (calls s2).
Proof.
  intros Hrun Hc. rewrite fail_fast_run_app in Hrun.
  destruct (fail_fast_run false s1) as [[|]|]; try discriminate;
    cbn [fail_fast_run failed_step] in Hrun; rewrite Hc in Hrun.
  - discriminate.
  - cbn [negb] in Hrun. now apply fail_fast_run_failed.
Qed.

Section Tidy.
Context {A : Type}.

Lemma tidy_ret (a : A) : tidy (ret a).
Proof. intros h failed. reflexivity. Qed.

Lemma tidy_bind {B} (m : M B) (f : B -> M A) :
  tidy m -> (forall b, tidy (f b)) -> tidy (bind m f).
Proof.
  intros Hm Hf h failed. rewrite bind_eq. cbn [snd].
  rewrite fail_fast_run_app, Hm. apply Hf.
Qed.

End Tidy.

Lemma tidy_act (a : action) : tidy (act a).
Proof. intros h failed. reflexivity. Qed.

Lemma tidy_cleanup (env : Env) (c : call) :
  is_cleanup c = true -> tidy (invoke env c).
Proof.
  intros Hc h failed. cbn [invoke snd fail_fast_run failed_step].
  rewrite Hc. destruct failed; [reflexivity|].
  destruct (env h c); reflexivity.
Qed.

Lemma tidy_cleanup_logged (env : Env) (c : call) :
  is_cleanup c = true ->
  tidy (LogOp (r <- invoke env c ;; ret (err_of r))).
Proof.
  intros Hc. unfold LogOp. apply tidy_bind; [now apply tidy_cleanup|].
  intros r. apply tidy_ret.
Qed.

Lemma tidy_range_do {A} (l : list A) (f : A -> M unit) :
  (forall x, tidy (f x)) -> tidy (range_do l f).
Proof.
  intros Hf. induction l as [|x l IH]; [apply tidy_ret|].
  cbn [range_do]. apply tidy_bind; [apply Hf|intros _; exact IH].
Qed.

Lemma fail_fast_ret (e : option error) : fail_fast (ret e).
Proof. intros h. exists false. split; [reflexivity|discriminate]. Qed.

Lemma fail_fast_after {A} (m : M A) (k : M (option error)) :
  tidy m -> fail_fast k -> fail_fast (m ;; k).
Proof.
  intros Hm Hk h. rewrite bind_eq. cbn [fst snd].
  destruct (Hk (h ++ snd (m h))) as (failed & Hrun & Herr).
  exists failed. rewrite fail_fast_run_app, Hm. split; assumption.
Qed.

Lemma fail_fast_defer {B} (cleanup : M B) (body : M (option error)) :
  fail_fast body -> tidy cleanup -> fail_fast (defer cleanup body).
Proof.
  intros Hb Hc h. rewrite defer_eq. cbn [fst snd].
  destruct (Hb h) as (failed & Hrun & Herr).
  exists failed. rewrite fail_fast_run_app, Hrun, Hc. split; [reflexivity|].
  exact Herr.
Qed.

Lemma fail_fast_invoke (env : Env) (c : call) :
  fail_fast (r <- invoke env c ;; ret (err_of r)).
Proof.
  intros h. rewrite bind_eq. cbn [invoke ret fst snd app fail_fast_run].
  eexists. split; [reflexivity|].
  destruct (env h c); cbn [failed_step err_of]; [discriminate|].
  intros _. discriminate.
Qed.

Lemma fail_fast_check (m : M (option error)) (wrap : error -> error)
  (k : M (option error)) :
  fail_fast m -> fail_fast k -> fail_fast (check m wrap k).
Proof.
  intros Hm Hk h. rewrite check_eq.
  destruct (Hm h) as (failed & Hrun & Herr).
  destruct (fst (m h)) as [err|]; cbn [fst snd].
  - exists failed. split; [exact Hrun|]. intros _. discriminate.
  - destruct failed; [now elim (Herr eq_refl)|].
    destruct (Hk (h ++ snd (m h))) as (failed' & Hrun' & Herr').
    exists failed'. rewrite fail_fast_run_app, Hrun. split; assumption.
Qed.

Lemma fail_fast_range_err {A} (l : list A) (f : A -> M (option error)) :
  (forall x, fail_fast (f x)) -> fail_fast (range_err l f).
Proof.
  intros Hf. induction l as [|x l IH]; [apply fail_fast_ret|].
  intros h. rewrite range_err_cons.
  destruct (Hf x h) as (failed & Hrun & Herr).
  destruct (fst (f x h)) as [err|]; cbn [fst snd].
  - exists failed. split; [exact Hrun|]. intros _. discriminate.
  - destruct failed; [now elim (Herr eq_refl)|].
    destruct (IH (h ++ snd (f x h))) as (failed' & Hrun' & Herr').
    exists failed'. rewrite fail_fast_run_app, Hrun. split; assumption.
Qed.

Ltac tidy_up :=
  repeat match goal with
         | |- tidy (ret _) => apply tidy_ret
         | |- tidy (act _) => apply tidy_act
         | |- tidy (invoke _ _) => apply tidy_cleanup; reflexivity
         | |- tidy (LogOp (bind (invoke _ _) _)) =>
             apply tidy_cleanup_logged; reflexivity
         | |- tidy (bind _ _) => apply tidy_bind; [|intros ?]
         | |- tidy (range_do _ _) => apply tidy_range_do; intros ?
         | |- tidy (if ?b then _ else _) => destruct b
         end.

Ltac fail_fast_steps :=
  repeat match goal with
         | |- fail_fast (ret _) => apply fail_fast_ret
         | |- fail_fast (LogOp _) => unfold LogOp
         | |- fail_fast (LogCmd _ _ _) => unfold LogCmd
         | |- fail_fast (bind (invoke _ _) (fun r => ret (err_of r))) =>
             apply fail_fast_invoke
         | |- fail_fast (check _ _ _) => apply fail_fast_check
         | |- fail_fast (defer _ _) => apply fail_fast_defer; [|tidy_up]
         | |- fail_fast (range_err _ _) =>
             apply fail_fast_range_err; intros ?
         | |- fail_fast (bind _ (fun _ => _)) =>
             apply fail_fast_after; [tidy_up|]
         | |- fail_fast (if ?b then _ else _) => destruct b
         | |- fail_fast (match ?x with _ => _ end) => destruct x
         | |- fail_fast (let _ := _ in _) => cbv zeta
         end.

Section FailFast.
Variable D : util.Decls.
Variable env : Env.
Variable DestDir : string.

Lemma fail_fast_createPartitions (config : Config.t) :
  fail_fast (Exec.createPartitions env config).
Proof.
  unfold Exec.createPartitions, Exec.waitOnDevices, Exec.partitionDisk.
  fail_fast_steps.
Qed.

Lemma fail_fast_createRaids (config : Config.t) :
  fail_fast (Exec.createRaids env config).
Proof.
  unfold Exec.createRaids, Exec.waitOnDevices. fail_fast_steps.
Qed.

Lemma fail_fast_createFiles (fs : Filesystem.t) :
  fail_fast (Exec.createFiles env fs).
Proof.
  unfold Exec.createFiles, Exec.writeFiles, util.WriteFile.
  fail_fast_steps.
  intros h. rewrite bind_eq. cbn [invoke fst snd].
  destruct (env h (TempDir "" "ignition-files")) as [mnt|msg] eqn:Etd.
  - assert (Hk : fail_fast
                   (defer (invoke env (Remove mnt))
                      (check
                         (LogOp (r <- invoke env
                                        (Mount (Filesystem.Device fs) mnt
                                           (Filesystem.Format fs) 0 "") ;;
                                 ret (err_of r)))
                         (fun err =>
                            Errorf "failed to mount device %q at %q: %v"
                              [AStr (Filesystem.Device fs); AStr mnt;
                               AErr err])
                         (defer (LogOp (r <- invoke env (Unmount mnt 0) ;;
                                        ret (err_of r)))
                            (range_err (Filesystem.Files fs)
                               (fun f =>
                                  check
                                    (LogOp (r <- invoke env (WriteFile mnt f) ;;
                                            ret (err_of r)))
                                    (fun err =>
                                       Errorf "failed to create file %q: %v"
                                         [AStr (File.Path f); AErr err])
                                    (ret None))))))).
    { fail_fast_steps. }
    destruct (Hk (h ++ [Did (TempDir "" "ignition-files") (Ok mnt)]))
      as (failed & Hrun & Herr).
    exists failed. split; [|exact Herr].
    cbn [app fail_fast_run failed_step]. exact Hrun.
  - exists true. split; [reflexivity|]. intros _. discriminate.
Qed.

Lemma fail_fast_createFilesystems (config : Config.t) :
  fail_fast (Exec.createFilesystems env config).
Proof.
  unfold Exec.createFilesystems, Exec.createFilesystem, Exec.waitOnDevices.
  fail_fast_steps; apply fail_fast_createFiles.
Qed.

Lemma fail_fast_EnableUnit (unit : SystemdUnit.t) :
  fail_fast (util.EnableUnit D env DestDir unit).
Proof.
  unfold util.EnableUnit, util.mkdirForFile. fail_fast_steps.
  intros h. rewrite bind_eq. cbn [invoke fst snd].
  destruct (env h (OpenFile _ _ _)) as [v|msg]; cbn [err_of].
  - assert (Hk : fail_fast
                   (defer (invoke env (Close (util.JoinPath D DestDir
                                                [util.presetPath])))
                      (r <- invoke env
                              (WriteString
                                 (util.JoinPath D DestDir [util.presetPath])
                                 (util.Sprintf_enable (SystemdUnit.Name unit))) ;;
                       ret (err_of r)))).
    { fail_fast_steps. }
    match goal with
    | |- context [defer _ _ ?h'] =>
        destruct (Hk h') as (failed & Hrun & Herr)
    end.
    exists failed. split; [|exact Herr].
    cbn [app fail_fast_run failed_step]. exact Hrun.
  - exists true. split; [reflexivity|]. intros _. discriminate.
Qed.

Lemma fail_fast_createUnits (config : Config.t) :
  fail_fast (Exec.createUnits D env DestDir config).
Proof.
  unfold Exec.createUnits, Exec.createSystemdUnit, Exec.writeSystemdUnit,
    Exec.writeNetworkdUnit, util.MaskUnit, util.mkdirForFile,
    util.WriteFile.
  fail_fast_steps; apply fail_fast_EnableUnit.
Qed.

(** X7.  The pipeline is fail-fast.  In the steps of [Run], once a call
    other than a cleanup (an unmount, the removal of the temporary
    directory, the closing of the preset file) has failed, nothing but
    cleanups is called any more, and [Run] returns [false]. *)
Theorem Run_fail_fast (config : Config.t) (h : history)
  (s1 s2 : list step) (c : call) (msg : string) :
  snd (Exec.Run D env DestDir config h) = s1 ++ Did c (Fail msg) :: s2 ->
  is_cleanup c = false ->
  fst (Exec.Run D env DestDir config h) = false
  /\ Forall (fun c' => is_cleanup c' = true) (calls s2).
Proof.
  intros Hsteps Hc.
  assert (Hrun : exists failed,
            fail_fast_run false (snd (Exec.Run D env DestDir config h))
            = Some failed
            /\ (failed = true ->
                fst (Exec.Run D env DestDir config h) = false)).
  { unfold Exec.Run.
    rewrite bind_eq.
    destruct (fail_fast_createPartitions config h) as (f1 & R1 & E1).
    destruct (fst (Exec.createPartitions env config h)) as [e1|].
    { exists f1. cbn [act ret bind fst snd app].
      rewrite fail_fast_run_app, R1. split; reflexivity. }
    destruct f1; [now elim (E1 eq_refl)|].
    rewrite bind_eq.
    destruct (fail_fast_createRaids config
                (h ++ snd (Exec.createPartitions env config h)))
      as (f2 & R2 & E2).
    destruct (fst (Exec.createRaids env config _)) as [e2|].
    { exists f2. cbn [act ret bind fst snd app].
      rewrite fail_fast_run_app, R1; cbv beta iota.
      rewrite fail_fast_run_app, R2; cbv beta iota. split; reflexivity. }
    destruct f2; [now elim (E2 eq_refl)|].
    rewrite bind_eq.
    match goal with
    | |- context [Exec.createFilesystems env config ?h3] =>
        destruct (fail_fast_createFilesystems config h3) as (f3 & R3 & E3)
    end.
    destruct (fst (Exec.createFilesystems env config _)) as [e3|].
    { exists f3. cbn [act ret bind fst snd app].
      rewrite fail_fast_run_app, R1; cbv beta iota.
      rewrite fail_fast_run_app, R2; cbv beta iota.
      rewrite fail_fast_run_app, R3; cbv beta iota. split; reflexivity. }
    destruct f3; [now elim (E3 eq_refl)|].
    rewrite bind_eq.
    match goal with
    | |- context [Exec.createUnits D env DestDir config ?h4] =>
        destruct (fail_fast_createUnits config h4) as (f4 & R4 & E4)
    end.
    destruct (fst (Exec.createUnits D env DestDir config _)) as [e4|].
    { exists f4. cbn [act ret bind fst snd app].
      rewrite fail_fast_run_app, R1; cbv beta iota.
      rewrite fail_fast_run_app, R2; cbv beta iota.
      rewrite fail_fast_run_app, R3; cbv beta iota.
      rewrite fail_fast_run_app, R4; cbv beta iota. split; reflexivity. }
    destruct f4; [now elim (E4 eq_refl)|].
    exists false. cbn [ret fst snd].
    rewrite fail_fast_run_app, R1; cbv beta iota.
      rewrite fail_fast_run_app, R2; cbv beta iota.
      rewrite fail_fast_run_app, R3; cbv beta iota.
      rewrite fail_fast_run_app, R4; cbv beta iota. split; [reflexivity|].
    discriminate. }
  destruct Hrun as (failed & Hrun & Hfalse).
  rewrite Hsteps in Hrun.
  destruct (fail_fast_run_split _ _ _ _ _ Hrun Hc) as [-> Hall].
  split; [apply Hfalse; reflexivity|exact Hall].
Qed.

End FailFast.

(** The theorem on the run in which the commit of the partition table
    fails: nothing is called after it. *)
Lemma Run_fail_fast_witness :
  fst (Exec.Run decls0 commit_fails "/sysroot" config_disk_and_array [])
  = false.
Proof.
  exact (proj1 (Run_fail_fast decls0 commit_fails "/sysroot"
                  config_disk_and_array []
                  [Act (PushPrefix "createPartitions");
                   Did (WaitOnDevices ["/dev/sda"] "disks") (Ok "");
                   Act (Begin "/dev/sda")]
                  [Act PopPrefix;
                   Act (Crit "create partitions failed: %v"
                          [AErr (Errorf "commit failure: %v"
                                   [AErr (Errno "sgdisk failed")])])]
                  (Commit "/dev/sda") "sgdisk failed" eq_refl eq_refl)).
Defined.

(** ** The partitioning of one disk *)

Lemma range_do_act {A} (l : list A) (g : A -> action) (h : history) :
  range_do l (fun x => act (g x)) h = (tt, map (fun x => Act (g x)) l).
Proof.
  revert h. induction l as [|x l IH]; intros h; [reflexivity|].
  cbn [range_do map]. rewrite bind_eq. cbn [act fst snd app].
  now rewrite IH.
Qed.

Lemma uint64_small (z : Z) : 0 <= z < 2 ^ 64 -> uint64 z = z.
Proof. intros H. unfold uint64. now apply Z.mod_small. Qed.

Section PartitionDisk.
Variable env : Env.

(** X8.  For a disk whose partition sizes and offsets fit [uint64], the
    partitioning makes its requests in this order: the device is opened;
    if a wipe is requested it is announced in the log and queued; one
    partition is queued per configured partition, in the order of the
    configuration, with number, size, offset, label and type unchanged; the
    table is committed once, last.  The result is that of the commit, a
    failure being wrapped as a commit failure. *)
Theorem partitionDisk_order (dev : Disk.t) (h : history) :
  Forall (fun part => 0 <= Partition.Size part < 2 ^ 64
                      /\ 0 <= Partition.Start part < 2 ^ 64)
    (Disk.Partitions dev) ->
  let r := env (h ++ partition_queue dev) (Commit (Disk.Device dev)) in
  Exec.partitionDisk env dev h =
  (match r with
   | Ok _ => None
   | Fail msg => Some (Errorf "commit failure: %v" [AErr (Errno msg)])
   end,
   partition_queue dev ++ [Did (Commit (Disk.Device dev)) r]).
Proof.
  intros Hfit r.
  assert (Hq : map (fun part =>
                      Act (CreatePartition (Disk.Device dev)
                             {| sgdisk.Number := Partition.Number part;
                                sgdisk.Length := uint64 (Partition.Size part);
                                sgdisk.Offset := uint64 (Partition.Start part);
                                sgdisk.Label := Partition.Label part;
                                sgdisk.TypeGUID := Partition.TypeGUID part |}))
                (Disk.Partitions dev)
              = map (fun part =>
                       Act (CreatePartition (Disk.Device dev)
                              {| sgdisk.Number := Partition.Number part;
                                 sgdisk.Length := Partition.Size part;
                                 sgdisk.Offset := Partition.Start part;
                                 sgdisk.Label := Partition.Label part;
                                 sgdisk.TypeGUID := Partition.TypeGUID part |}))
                  (Disk.Partitions dev)).
  { induction Hfit as [|part l [Hs Ho] _ IH]; [reflexivity|].
    cbn [map]. rewrite IH, (uint64_small _ Hs), (uint64_small _ Ho).
    reflexivity. }
  subst r. unfold Exec.partitionDisk, partition_queue.
  rewrite bind_eq. cbn [act fst snd].
  rewrite bind_eq.
  rewrite bind_eq.
  rewrite (range_do_act (Disk.Partitions dev)
             (fun part =>
                CreatePartition (Disk.Device dev)
                  {| sgdisk.Number := Partition.Number part;
                     sgdisk.Length := uint64 (Partition.Size part);
                     sgdisk.Offset := uint64 (Partition.Start part);
                     sgdisk.Label := Partition.Label part;
                     sgdisk.TypeGUID := Partition.TypeGUID part |})).
  cbn [fst snd]. rewrite Hq.
  rewrite check_eq, bind_eq. cbn [invoke ret fst snd].
  destruct (Disk.WipeTable dev); cbn [act ret bind fst snd app];
    rewrite ?app_nil_r, <- ?app_assoc; cbn [app];
    match goal with
    | |- context [env ?h' (Commit _)] => destruct (env h' (Commit _))
    end; cbn [err_of fst snd app]; rewrite <- ?app_assoc; reflexivity.
Qed.

End PartitionDisk.

(** The theorem on a disk to wipe with two partitions. *)
Lemma partitionDisk_order_witness :
  Exec.partitionDisk all_ok disk_two_parts [] =
  (None,
   [ Act (Begin "/dev/sdb");
     Act (Info "wiping partition table requested on %q" [AStr "/dev/sdb"]);
     Act (WipeTable "/dev/sdb" true);
     Act (CreatePartition "/dev/sdb"
            {| sgdisk.Number := 1; sgdisk.Length := 0; sgdisk.Offset := 0;
               sgdisk.Label := "ROOT";
               sgdisk.TypeGUID := "0FC63DAF-8483-4772-8E79-3D69D8477DE4" |});
     Act (CreatePartition "/dev/sdb"
            {| sgdisk.Number := 2; sgdisk.Length := 4096;
               sgdisk.Offset := 2048; sgdisk.Label := "DATA";
               sgdisk.TypeGUID := "0FC63DAF-8483-4772-8E79-3D69D8477DE4" |});
     Did (Commit "/dev/sdb") (Ok "") ]).
Proof.
  refine (partitionDisk_order all_ok disk_two_parts [] _).
  repeat constructor; cbn; lia.
Defined.

(** ** The calls of a phase, in order *)

Lemma performs_check_wrap (m k : M (option error)) (wrap : error -> error)
  (e1 e2 : list call) :
  (forall h, performs m e1 h) ->
  (forall h, performs k e2 h) ->
  forall h, performs (check m wrap k) (e1 ++ e2) h.
Proof.
  intros Hm Hk h. unfold performs. rewrite check_eq.
  destruct (Hm h) as [[rest Hrest] Hall].
  destruct (fst (m h)) as [err|]; cbn [fst snd].
  - split; [|discriminate].
    exists (rest ++ e2). rewrite Hrest. now rewrite app_assoc.
  - specialize (Hall eq_refl).
    destruct (Hk (h ++ snd (m h))) as [[rest' Hrest'] Hall'].
    rewrite calls_app, Hall. split.
    + exists rest'. rewrite Hrest' at 1. now rewrite app_assoc.
    + intros Hnone. now rewrite (Hall' Hnone).
Qed.

Lemma performs_invoke (env : Env) (c : call) (h : history) :
  performs (r <- invoke env c ;; ret (err_of r)) [c] h.
Proof.
  unfold performs. rewrite bind_eq. cbn [invoke ret fst snd app calls].
  split; [now exists []|reflexivity].
Qed.

Lemma performs_after {A} (m : M A) (k : M (option error)) (e : list call) :
  (forall h, calls (snd (m h)) = []) ->
  (forall h, performs k e h) ->
  forall h, performs (m ;; k) e h.
Proof.
  intros Hm Hk h. unfold performs. rewrite bind_eq. cbn [fst snd].
  rewrite calls_app, Hm. apply Hk.
Qed.

Lemma performs_prefixed (prefix : string) (body : M (option error))
  (e : list call) :
  (forall h, performs body e h) ->
  forall h,
    performs (act (PushPrefix prefix) ;; defer (act PopPrefix) body) e h.
Proof.
  intros Hb. apply performs_after; [reflexivity|].
  intros h. unfold performs. rewrite defer_eq. cbn [act fst snd].
  rewrite calls_app. cbn [calls]. rewrite app_nil_r. apply Hb.
Qed.

Lemma performs_range_err {A} (l : list A) (f : A -> M (option error))
  (e : A -> list call) :
  (forall x h, performs (f x) (e x) h) ->
  forall h, performs (range_err l f) (flat_map e l) h.
Proof.
  intros Hf. induction l as [|x l IH]; intros h; [apply performs_ret|].
  unfold performs. rewrite range_err_cons. cbn [flat_map].
  destruct (Hf x h) as [[rest Hrest] Hall].
  destruct (fst (f x h)) as [err|]; cbn [fst snd].
  - split; [|discriminate].
    exists (rest ++ flat_map e l). rewrite Hrest. now rewrite app_assoc.
  - specialize (Hall eq_refl).
    destruct (IH (h ++ snd (f x h))) as [[rest' Hrest'] Hall'].
    rewrite calls_app, Hall. split.
    + exists rest'. rewrite Hrest' at 1. now rewrite app_assoc.
    + intros Hnone. now rewrite (Hall' Hnone).
Qed.

Lemma calls_acts {A} (l : list A) (g : A -> action) :
  calls (map (fun x => Act (g x)) l) = [].
Proof. induction l as [|x l IH]; [reflexivity|exact IH]. Qed.

Section PhaseCalls.
Variable D : util.Decls.
Variable env : Env.
Variable DestDir : string.

Lemma performs_waitOnDevices (devs : list string) (ctxt : string)
  (h : history) :
  performs (Exec.waitOnDevices env devs ctxt) [WaitOnDevices devs ctxt] h.
Proof.
  unfold Exec.waitOnDevices, LogOp.
  rewrite <- (app_nil_r [WaitOnDevices devs ctxt]).
  apply performs_check_wrap; [apply performs_invoke|apply performs_ret].
Qed.

Lemma performs_partitionDisk (dev : Disk.t) (h : history) :
  performs (Exec.partitionDisk env dev) [Commit (Disk.Device dev)] h.
Proof.
  unfold Exec.partitionDisk.
  apply performs_after; [reflexivity|]. intros h1.
  apply performs_after;
    [intros h'; destruct (Disk.WipeTable dev); reflexivity|].
  intros h2.
  apply performs_after;
    [intros h'; rewrite range_do_act; apply calls_acts|].
  intros h3.
  rewrite <- (app_nil_r [Commit (Disk.Device dev)]).
  apply performs_check_wrap; [apply performs_invoke|apply performs_ret].
Qed.

(** X9.  The calls of the partition phase are, in this order, the wait
    on the devices of all disks and then one commit per disk, in the order
    of the configuration: always the first ones of that list, and all of
    them when the phase returns no error.  The phase makes no other call. *)
Theorem createPartitions_calls (config : Config.t) (h : history) :
  let disks := Storage.Disks (Config.Storage config) in
  performs (Exec.createPartitions env config)
    (if is_nil disks then []
     else WaitOnDevices (map Disk.Device disks) "disks"
          :: map (fun dev => Commit (Disk.Device dev)) disks)
    h.
Proof.
  intros disks. unfold Exec.createPartitions. fold disks.
  destruct disks as [|d disks'] eqn:Ed; [apply performs_ret|].
  rewrite len_cons. cbn [is_nil]. rewrite <- Ed.
  rewrite range_append_singleton.
  apply performs_prefixed. intros h1.
  change (WaitOnDevices (map Disk.Device disks) "disks"
          :: map (fun dev => Commit (Disk.Device dev)) disks)
    with ([WaitOnDevices (map Disk.Device disks) "disks"]
          ++ map (fun dev => Commit (Disk.Device dev)) disks).
  apply performs_check_wrap; [apply performs_waitOnDevices|].
  intros h2.
  replace (map (fun dev => Commit (Disk.Device dev)) disks)
    with (flat_map (fun dev => [Commit (Disk.Device dev)]) disks)
    by (clear; induction disks; cbn; congruence).
  apply performs_range_err. intros dev h3.
  rewrite <- (app_nil_r [Commit (Disk.Device dev)]).
  apply performs_check_wrap;
    [intros h4; apply performs_partitionDisk|apply performs_ret].
Qed.

(** X10.  The calls of the RAID phase are, in this order, the wait on
    the members of all arrays and then one [/sbin/mdadm] command per array,
    in the order of the configuration: always the first ones of that list,
    and all of them when the phase returns no error.  The phase makes no
    other call. *)
Theorem createRaids_calls (config : Config.t) (h : history) :
  let arrays := Storage.Arrays (Config.Storage config) in
  performs (Exec.createRaids env config)
    (if is_nil arrays then []
     else WaitOnDevices (flat_map Raid.Devices arrays) "raids"
          :: map (fun md => Command "/sbin/mdadm" (Exec.mdadmArgs md)) arrays)
    h.
Proof.
  intros arrays. unfold Exec.createRaids. fold arrays.
  destruct arrays as [|a arrays'] eqn:Ea; [apply performs_ret|].
  rewrite len_cons. cbn [is_nil]. rewrite <- Ea.
  rewrite range_append_flat. cbn [app].
  apply performs_prefixed. intros h1.
  change (WaitOnDevices (flat_map Raid.Devices arrays) "raids"
          :: map (fun md => Command "/sbin/mdadm" (Exec.mdadmArgs md)) arrays)
    with ([WaitOnDevices (flat_map Raid.Devices arrays) "raids"]
          ++ map (fun md => Command "/sbin/mdadm" (Exec.mdadmArgs md))
               arrays).
  apply performs_check_wrap; [apply performs_waitOnDevices|].
  intros h2.
  replace (map (fun md => Command "/sbin/mdadm" (Exec.mdadmArgs md)) arrays)
    with (flat_map (fun md => [Command "/sbin/mdadm" (Exec.mdadmArgs md)])
            arrays)
    by (clear; induction arrays; cbn; congruence).
  apply performs_range_err. intros md h3.
  rewrite <- (app_nil_r [Command "/sbin/mdadm" (Exec.mdadmArgs md)]).
  apply performs_check_wrap; [|apply performs_ret].
  intros h4. unfold LogCmd. apply performs_invoke.
Qed.

End PhaseCalls.

(** ** The unit phase *)

Section UnitPhase.
Variable D : util.Decls.
Variable env : Env.
Variable DestDir : string.

Lemma performs_writeNetworkdUnit (unit : NetworkdUnit.t) (h : history) :
  performs (Exec.writeNetworkdUnit D env DestDir unit)
    (networkd_write D DestDir unit) h.
Proof.
  unfold Exec.writeNetworkdUnit, networkd_write, LogOp at 1.
  destruct (String.eqb (NetworkdUnit.Contents unit) "");
    [apply performs_ret|apply performs_write].
Qed.

Lemma performs_createUnits (config : Config.t) (h : history) :
  performs (Exec.createUnits D env DestDir config)
    (flat_map (systemd_unit_calls D DestDir) (Config.SystemdUnits config)
     ++ flat_map (networkd_write D DestDir) (Config.NetworkdUnits config))
    h.
Proof.
  unfold Exec.createUnits.
  apply performs_check.
  - apply performs_range_err. intros unit h1.
    apply performs_createSystemdUnit.
  - apply performs_range_err. intros unit h1.
    rewrite <- (app_nil_r (networkd_write D DestDir unit)).
    apply performs_check;
      [intros h2; apply performs_writeNetworkdUnit|apply performs_ret].
Qed.

Lemma accounts_createUnits (config : Config.t) :
  accounts bare_blame no_quiet_error (Exec.createUnits D env DestDir config).
Proof.
  unfold Exec.createUnits.
  apply accounts_check_same.
  - apply accounts_range_err. intros unit _.
    apply accounts_createSystemdUnit.
  - apply accounts_range_err. intros unit _.
    apply accounts_check_same; [|apply accounts_ret_none].
    unfold Exec.writeNetworkdUnit, LogOp at 1.
    destruct (String.eqb (NetworkdUnit.Contents unit) "");
      [apply accounts_ret_none|apply accounts_write].
Qed.

(** X11.  The calls of the unit phase are, in this order, those of each
    systemd unit in the order of the configuration (drop-ins with contents,
    the unit file if it has contents, enabling, masking) and then one write
    per networkd unit with contents, in the order of the configuration; a
    networkd unit without contents gives no call.  The calls made are
    always the first ones of that list.  The phase returns no error exactly
    when none of its calls other than the closing of the preset file has
    failed, and then the whole list has been called; so a unit or drop-in
    without contents never gives an error.  When the phase returns an
    error, that error is the one of the first call that failed, as that
    call returned it, and nothing but the closing of the preset file is
    called after it: no networkd unit is written unless every systemd unit
    has been dealt with without error. *)
Theorem createUnits_calls (config : Config.t) (h : history) :
  let out := Exec.createUnits D env DestDir config h in
  let expected :=
    flat_map (systemd_unit_calls D DestDir) (Config.SystemdUnits config)
    ++ flat_map (networkd_write D DestDir) (Config.NetworkdUnits config) in
  (exists rest, expected = calls (snd out) ++ rest)
  /\ (fst out = None <-> existsb failed_step (snd out) = false)
  /\ (fst out = None -> calls (snd out) = expected)
  /\ (forall e,
        fst out = Some e ->
        exists s1 c msg s2,
          snd out = s1 ++ Did c (Fail msg) :: s2
          /\ is_cleanup c = false
          /\ existsb failed_step s1 = false
          /\ Forall (fun c' => is_cleanup c' = true) (calls s2)
          /\ e = Errno msg).
Proof.
  intros out expected.
  destruct (performs_createUnits config h) as [Hprefix Hall].
  split; [exact Hprefix|].
  split; [exact (accounts_decides _ _ h (accounts_createUnits config))|].
  split; [exact Hall|].
  intros e He.
  pose proof (accounts_createUnits config h) as Hacc.
  fold out in Hacc. rewrite He in Hacc.
  destruct Hacc as [[[] _]|Hacc]. exact Hacc.
Qed.

(** X12.  The unit phase touches nothing but the system being provisioned
    under [DestDir].  It never waits for a device, commits a partition
    table, runs a command, creates or removes a temporary directory, mounts
    or unmounts.  Every file it writes is the file of a configured unit or
    drop-in and is written with [DestDir] as destination.  Every other path
    it uses is [JoinPath] of [DestDir]: the preset file, which is opened
    with the flags for appending and creation and mode 0644, written with
    the line of a unit to enable, and closed; the path of a unit to mask,
    which is linked to [/dev/null]; and the directories made for these
    two. *)
Theorem createUnits_stays_under_DestDir (config : Config.t) :
  confined (unit_phase_call D DestDir config)
    (Exec.createUnits D env DestDir config).
Proof.
  unfold Exec.createUnits, check.
  apply confined_bind.
  - apply confined_range_err. intros unit Hunit.
    unfold Exec.createSystemdUnit, check.
    apply confined_bind.
    { unfold Exec.writeSystemdUnit, LogOp, check, util.WriteFile.
      apply confined_bind.
      - apply confined_range_err. intros dropin Hdropin.
        destruct (String.eqb _ ""); [apply confined_ret|].
        confine. split; [reflexivity|]. left. exists unit.
        split; [exact Hunit|]. right. exists dropin. now split.
      - intros [err|]; [apply confined_ret|].
        destruct (String.eqb _ ""); [apply confined_ret|].
        confine. split; [reflexivity|]. left. exists unit.
        split; [exact Hunit|]. now left. }
    intros [err|]; [apply confined_ret|].
    apply confined_bind.
    { destruct (SystemdUnit.Enable unit) eqn:Een; [|apply confined_ret].
      unfold LogOp, util.EnableUnit, util.mkdirForFile, check,
        util.Sprintf_enable.
      confine.
      - now left.
      - split; [reflexivity|]. split; reflexivity.
      - split; [reflexivity|]. exists unit. now repeat split.
      - reflexivity. }
    intros [err|]; [apply confined_ret|].
    apply confined_bind; [|intros [err|]; apply confined_ret].
    destruct (SystemdUnit.Mask unit) eqn:Ema; [|apply confined_ret].
    unfold LogOp, util.MaskUnit, util.mkdirForFile, check.
    confine.
    + right. exists unit. now repeat split.
    + split; [reflexivity|]. exists unit. now repeat split.
  - intros [err|]; [apply confined_ret|].
    apply confined_range_err. intros unit Hunit.
    unfold Exec.writeNetworkdUnit, LogOp, check, util.WriteFile.
    apply confined_bind; [|intros [err|]; apply confined_ret].
    destruct (String.eqb _ ""); [apply confined_ret|].
    confine. split; [reflexivity|]. right. exists unit. now split.
Qed.

End UnitPhase.

(** The unit phase on two systemd units and two networkd units, when the
    preset file cannot be written to: the first unit's drop-in is written,
    the preset file is opened, the write fails, the file is closed, and the
    phase returns the error of the write; nothing is masked and no other
    unit is written. *)
Lemma createUnits_stops_at_failed_enable :
  Exec.createUnits decls0 write_string_fails "/sysroot" config_units [] =
  (Some (Errno "no space left on device"),
   [ Did (WriteFile "/sysroot"
            {| File.Path := "/etc/systemd/system/foo.service.d/a.conf";
               File.Contents := "[Service]";
               File.Mode := 420; File.Uid := 0; File.Gid := 0 |}) (Ok "");
     Did (MkdirForFile
            "/sysroot/etc/systemd/system-preset/20-ignition.preset") (Ok "");
     Did (OpenFile "/sysroot/etc/systemd/system-preset/20-ignition.preset"
            0x442 420) (Ok "");
     Did (WriteString "/sysroot/etc/systemd/system-preset/20-ignition.preset"
            (String.append "enable foo.service" util.newline))
       (Fail "no space left on device");
     Did (Close "/sysroot/etc/systemd/system-preset/20-ignition.preset")
       (Ok "") ]).
Proof. reflexivity. Qed.

(** ** The two pipelines, compared *)

(** C10.  The partition, RAID and filesystem phases of the [stage] struct
    return the same value and perform the same steps as those of the
    [storage] struct, for every configuration, environment and history.
    [Run] of the [storage] struct is [Run] of the [stage] struct followed,
    when that one succeeds, by the unit phase.  [Run] of the [stage] struct
    never makes a call that enables or masks a unit, and every file it
    writes is a file declared for a filesystem.  The unit phase that [Run]
    of the [storage] struct adds does write the units: its calls are, in
    order and up to the first one that fails, the drop-in writes, the unit
    file write, the preset entry and the mask link of each systemd unit and
    the write of each networkd unit; it returns no error exactly when none
    of them (the closing of the preset file apart) fails, and then it has
    made them all; so that a run of the [storage] struct that returns
    [true] has made all those calls after the calls of the [stage] run. *)
Theorem stage_is_storage_without_units (D : util.Decls) (env : Env)
  (DestDir : string) (config : Config.t) :
  eqm (Stage.createPartitions env config) (Exec.createPartitions env config)
  /\ eqm (Stage.createRaids env config) (Exec.createRaids env config)
  /\ eqm (Stage.createFilesystems env config)
         (Exec.createFilesystems env config)
  /\ (forall h,
        let s := Stage.Run env config h in
        let u := Exec.createUnits D env DestDir config (h ++ snd s) in
        Exec.Run D env DestDir config h =
        if fst s then
          match fst u with
          | None => (true, snd s ++ snd u)
          | Some err =>
              (false,
               snd s ++ snd u ++
               [Act (Crit "failed to create units: %v" [AErr err])])
          end
        else s)
  /\ confined (storage_call config) (Stage.Run env config)
  /\ ~ confined (storage_call config_one_unit)
         (Exec.Run D all_ok DestDir config_one_unit)
  /\ (forall h,
        let u := Exec.createUnits D env DestDir config h in
        let unit_calls :=
          flat_map (systemd_unit_calls D DestDir)
            (Config.SystemdUnits config)
          ++ flat_map (networkd_write D DestDir)
               (Config.NetworkdUnits config) in
        (exists rest, unit_calls = calls (snd u) ++ rest)
        /\ (fst u = None <-> existsb failed_step (snd u) = false)
        /\ (fst u = None -> calls (snd u) = unit_calls))
  /\ (forall h,
        fst (Exec.Run D env DestDir config h) = true ->
        fst (Stage.Run env config h) = true
        /\ calls (snd (Exec.Run D env DestDir config h)) =
           calls (snd (Stage.Run env config h))
           ++ flat_map (systemd_unit_calls D DestDir)
                (Config.SystemdUnits config)
           ++ flat_map (networkd_write D DestDir)
                (Config.NetworkdUnits config)).
Proof.
  assert (Hrun : forall h,
            let s := Stage.Run env config h in
            let u := Exec.createUnits D env DestDir config (h ++ snd s) in
            Exec.Run D env DestDir config h =
            if fst s then
              match fst u with
              | None => (true, snd s ++ snd u)
              | Some err =>
                  (false,
                   snd s ++ snd u ++
                   [Act (Crit "failed to create units: %v" [AErr err])])
              end
            else s).
  { intros h. cbv zeta. unfold Stage.Run, Exec.Run.
    rewrite (bind_eq (Stage.createPartitions env config)).
    rewrite (bind_eq (Exec.createPartitions env config)).
    rewrite (stage_createPartitions env config h).
    destruct (fst (Exec.createPartitions env config h)) as [e1|];
      [reflexivity|].
    rewrite (bind_eq (Stage.createRaids env config)).
    rewrite (bind_eq (Exec.createRaids env config)).
    rewrite (stage_createRaids env config _).
    destruct (fst (Exec.createRaids env config _)) as [e2|];
      [reflexivity|].
    rewrite (bind_eq (Stage.createFilesystems env config)).
    rewrite (bind_eq (Exec.createFilesystems env config)).
    rewrite (stage_createFilesystems env config _).
    destruct (fst (Exec.createFilesystems env config _)) as [e3|];
      [reflexivity|].
    rewrite bind_eq. cbn [ret fst snd].
    rewrite !app_nil_r. rewrite <- !app_assoc.
    destruct (fst (Exec.createUnits D env DestDir config _)) as [e4|];
      cbn [act ret bind fst snd app]; rewrite ?app_nil_r, <- ?app_assoc;
      reflexivity. }
  split; [apply stage_createPartitions|].
  split; [apply stage_createRaids|].
  split; [apply stage_createFilesystems|].
  split; [exact Hrun|].
  split; [apply stage_Run_confined|].
  split.
  { intros H. specialize (H []). inversion H as [|c l Hc Hl Heq].
    destruct Hc as (fs & [] & _). }
  split.
  { intros h. cbv zeta.
    destruct (performs_createUnits D env DestDir config h) as [Hprefix Hall].
    split; [exact Hprefix|].
    split; [|exact Hall].
    exact (accounts_decides _ _ h (accounts_createUnits D env DestDir config)). }
  intros h Htrue. specialize (Hrun h). cbv zeta in Hrun.
  rewrite Hrun in Htrue |- *.
  destruct (fst (Stage.Run env config h)) eqn:Es.
  - split; [reflexivity|].
    destruct (performs_createUnits D env DestDir config
                (h ++ snd (Stage.Run env config h))) as [_ Hall].
    destruct (fst (Exec.createUnits D env DestDir config _)) as [err|];
      [discriminate|].
    cbn [snd]. rewrite calls_app, (Hall eq_refl). reflexivity.
  - rewrite Es in Htrue. discriminate.
Qed.

(** ** Enabling a unit *)

Section Enabling.
Variable D : util.Decls.
Variable env : Env.

(** X13.  [EnableUnit] stops at the first of the directory creation and
    the opening of the preset file that fails, returning that error with
    nothing written and nothing closed.  Once the file is open, the line is
    written and the file is closed, also when the write fails; the error
    returned is that of the write, and a failure to close is not
    reported. *)
Theorem EnableUnit_closes_what_it_opened (d : string) (unit : SystemdUnit.t)
  (h : history) :
  let path := util.JoinPath D d [util.presetPath] in
  let flags := Z.lor (Z.lor util.O_RDWR util.O_APPEND) util.O_CREATE in
  let open := OpenFile path flags util.DefaultPresetPermissions in
  let write :=
    WriteString path
      (String.append "enable "
         (String.append (SystemdUnit.Name unit) util.newline)) in
  let r1 := env h (MkdirForFile path) in
  let h1 := h ++ [Did (MkdirForFile path) r1] in
  let r2 := env h1 open in
  let h2 := h1 ++ [Did open r2] in
  let r3 := env h2 write in
  let r4 := env (h2 ++ [Did write r3]) (Close path) in
  util.EnableUnit D env d unit h =
  match r1, r2 with
  | Fail msg, _ => (Some (Errno msg), [Did (MkdirForFile path) r1])
  | Ok _, Fail msg =>
      (Some (Errno msg), [Did (MkdirForFile path) r1; Did open r2])
  | Ok _, Ok _ =>
      (err_of r3,
       [Did (MkdirForFile path) r1; Did open r2; Did write r3;
        Did (Close path) r4])
  end.
Proof.
  cbv zeta. unfold util.EnableUnit, util.mkdirForFile, util.Sprintf_enable.
  cbv [check defer bind invoke ret].
  destruct (env h (MkdirForFile _)) as [v1|m1]; cbn [err_of app];
    [|reflexivity].
  destruct (env _ (OpenFile _ _ _)) as [v2|m2]; cbn [err_of app];
    [|reflexivity].
  rewrite <- !app_assoc. cbn [app]. rewrite ?app_nil_r.
  reflexivity.
Qed.

End Enabling.

(** ** The formatter *)

Section Formatter.
Variable env : Env.

(** X14.  The formatter is chosen by exact comparison of the format with
    [btrfs] and [ext4]: every other string is rejected with the
    unsupported-format error.  When a formatter is chosen, the configured
    options come first and unchanged, two arguments are added to them, and
    the last argument is the device. *)
Theorem mkfsCommand_classification (fs : Filesystem.t) :
  (Exec.mkfsCommand fs =
   inl (Errorf "unsupported filesystem format: %q"
          [AStr (Filesystem.Format fs)])
   <-> Filesystem.Format fs <> "btrfs" /\ Filesystem.Format fs <> "ext4")
  /\ (forall mkfs args,
        Exec.mkfsCommand fs = inr (mkfs, args) ->
        (Filesystem.Format fs = "btrfs" \/ Filesystem.Format fs = "ext4")
        /\ firstn (List.length (Filesystem.Options fs)) args
           = Filesystem.Options fs
        /\ List.length args = S (S (List.length (Filesystem.Options fs)))
        /\ last args "" = Filesystem.Device fs).
Proof.
  unfold Exec.mkfsCommand.
  destruct (String.eqb_spec (Filesystem.Format fs) "btrfs") as [Eb|Nb];
    [|destruct (String.eqb_spec (Filesystem.Format fs) "ext4") as [Ee|Ne]].
  - split.
    + split; [discriminate|]. intros [H _]. contradiction.
    + intros mkfs args [= <- <-].
      split; [now left|].
      rewrite <- app_assoc. split; [|split].
      * now rewrite firstn_app, firstn_all, Nat.sub_diag, app_nil_r.
      * rewrite length_app. cbn. lia.
      * now rewrite app_assoc, last_last.
  - split.
    + split; [discriminate|]. intros [_ H]. contradiction.
    + intros mkfs args [= <- <-].
      split; [now right|].
      rewrite <- app_assoc. split; [|split].
      * now rewrite firstn_app, firstn_all, Nat.sub_diag, app_nil_r.
      * rewrite length_app. cbn. lia.
      * now rewrite app_assoc, last_last.
  - split.
    + split; [intros _; now split|reflexivity].
    + intros mkfs args H. discriminate.
Qed.

(** X16.  When the formatter command fails, the work on the entry stops
    there: the error names the formatter, its failure and its arguments, and
    no temporary directory is created, nothing is mounted and no file is
    written on the device that could not be formatted. *)
Theorem createFilesystem_mkfs_failure (fs : Filesystem.t) (h : history)
  (mkfs : string) (args : list string) (msg : string) :
  Filesystem.Initialize fs = true ->
  Exec.mkfsCommand fs = inr (mkfs, args) ->
  env h (Command mkfs args) = Fail msg ->
  Exec.createFilesystem env fs h =
  (Some (Errorf "failed to run %q: %v %v"
           [AStr mkfs; AErr (Errno msg); AStrs args]),
   [Did (Command mkfs args) (Fail msg)]).
Proof.
  intros Hinit Hcmd Hfail.
  unfold Exec.createFilesystem. rewrite Hinit, Hcmd.
  rewrite check_eq, check_eq. unfold LogCmd. rewrite bind_eq.
  cbn [invoke ret fst snd app]. rewrite Hfail. reflexivity.
Qed.

End Formatter.

(** The theorem on the scenario of the specification with a formatter that
    fails. *)
Lemma createFilesystem_mkfs_failure_witness :
  Exec.createFilesystem mkfs_fails fs_hostname [] =
  (Some (Errorf "failed to run %q: %v %v"
           [AStr "/sbin/mkfs.ext4"; AErr (Errno "exit status 1");
            AStrs ["-F"; "/dev/sda1"]]),
   [Did (Command "/sbin/mkfs.ext4" ["-F"; "/dev/sda1"])
      (Fail "exit status 1")]).
Proof.
  exact (createFilesystem_mkfs_failure mkfs_fails fs_hostname []
           "/sbin/mkfs.ext4" ["-F"; "/dev/sda1"] "exit status 1"
           eq_refl eq_refl eq_refl).
Defined.

(** ** The two structs on a configuration without units *)

Section NoUnits.
Variable D : util.Decls.
Variable env : Env.
Variable DestDir : string.

(** X15.  On a configuration without systemd and networkd units the two
    pipelines coincide: [Run] of the [storage] struct returns the same value
    and performs the same steps as [Run] of the [stage] struct. *)
Theorem Run_without_units (config : Config.t) (h : history) :
  Config.SystemdUnits config = [] ->
  Config.NetworkdUnits config = [] ->
  Exec.Run D env DestDir config h = Stage.Run env config h.
Proof.
  intros Hs Hn.
  assert (Hu : forall h', Exec.createUnits D env DestDir config h'
                          = (None, [])).
  { intros h'. unfold Exec.createUnits. rewrite Hs, Hn. reflexivity. }
  unfold Stage.Run, Exec.Run.
  rewrite (bind_eq (Stage.createPartitions env config)).
  rewrite (bind_eq (Exec.createPartitions env config)).
  rewrite (stage_createPartitions env config h).
  destruct (fst (Exec.createPartitions env config h)) as [e1|];
    [reflexivity|].
  rewrite (bind_eq (Stage.createRaids env config)).
  rewrite (bind_eq (Exec.createRaids env config)).
  rewrite (stage_createRaids env config _).
  destruct (fst (Exec.createRaids env config _)) as [e2|];
    [reflexivity|].
  rewrite (bind_eq (Stage.createFilesystems env config)).
  rewrite (bind_eq (Exec.createFilesystems env config)).
  rewrite (stage_createFilesystems env config _).
  destruct (fst (Exec.createFilesystems env config _)) as [e3|];
    [reflexivity|].
  rewrite bind_eq, Hu. reflexivity.
Qed.

End NoUnits.

(** The theorem on the configuration with one disk and one array. *)
Lemma Run_without_units_witness :
  Exec.Run decls0 all_ok "/sysroot" config_disk_and_array [] =
  Stage.Run all_ok config_disk_and_array [].
Proof.
  exact (Run_without_units decls0 all_ok "/sysroot" config_disk_and_array []
           eq_refl eq_refl).
Defined.

(** ** The errors returned *)

Lemma mkfsCommand_unsupported (fs : Filesystem.t) (err : error) :
  Exec.mkfsCommand fs = inl err ->
  Filesystem.Format fs <> "btrfs"
  /\ Filesystem.Format fs <> "ext4"
  /\ err = Errorf "unsupported filesystem format: %q"
             [AStr (Filesystem.Format fs)].
Proof.
  unfold Exec.mkfsCommand.
  destruct (String.eqb (Filesystem.Format fs) "btrfs") eqn:Eb;
    [discriminate|].
  destruct (String.eqb (Filesystem.Format fs) "ext4") eqn:Ee;
    [discriminate|].
  intros [= <-].
  apply String.eqb_neq in Eb. apply String.eqb_neq in Ee. now repeat split.
Qed.

Section Errors.
Variable D : util.Decls.
Variable env : Env.
Variable DestDir : string.

Lemma accounts_waitOnDevices (B : call -> string -> error -> Prop)
  (Q : error -> Prop) (devs : list string) (ctxt : string) :
  (forall msg,
     B (WaitOnDevices devs ctxt) msg
       (Errorf "failed to wait on %s devs: %v"
          [AStr ctxt; AErr (Errno msg)])) ->
  accounts B Q (Exec.waitOnDevices env devs ctxt).
Proof.
  intros HB. unfold Exec.waitOnDevices, LogOp.
  apply accounts_invoke_wrap; [reflexivity|exact HB|apply accounts_ret_none].
Qed.

Lemma accounts_partitionDisk (config : Config.t) (dev : Disk.t) :
  In dev (Storage.Disks (Config.Storage config)) ->
  accounts (partition_blame config) no_quiet_error
    (Exec.partitionDisk env dev).
Proof.
  intros Hdev. unfold Exec.partitionDisk.
  apply accounts_after; [reflexivity|].
  apply accounts_after;
    [intros h'; destruct (Disk.WipeTable dev); reflexivity|].
  apply accounts_after;
    [intros h'; rewrite range_do_act; apply calls_acts|].
  apply accounts_invoke_wrap;
    [reflexivity|intros msg; now constructor|apply accounts_ret_none].
Qed.

Lemma accounts_createPartitions (config : Config.t) :
  accounts (partition_blame config) no_quiet_error
    (Exec.createPartitions env config).
Proof.
  unfold Exec.createPartitions.
  destruct (len _ =? 0); [apply accounts_ret_none|].
  apply accounts_prefixed. cbv zeta. rewrite range_append_singleton.
  apply accounts_check_same.
  - apply accounts_waitOnDevices. intros msg. constructor.
  - apply accounts_range_err. intros dev Hdev.
    apply accounts_check_same; [|apply accounts_ret_none].
    unfold LogOp. now apply accounts_partitionDisk.
Qed.

Lemma accounts_createRaids (config : Config.t) :
  accounts (raid_blame config) no_quiet_error (Exec.createRaids env config).
Proof.
  unfold Exec.createRaids.
  destruct (len _ =? 0); [apply accounts_ret_none|].
  apply accounts_prefixed. cbv zeta. rewrite range_append_flat. cbn [app].
  apply accounts_check_same.
  - apply accounts_waitOnDevices. intros msg. constructor.
  - apply accounts_range_err. intros md Hmd. unfold LogCmd.
    apply accounts_invoke_wrap;
      [reflexivity|intros msg; now constructor|apply accounts_ret_none].
Qed.

Lemma accounts_createFiles (fs : Filesystem.t) :
  accounts (files_blame fs) no_quiet_error (Exec.createFiles env fs).
Proof.
  unfold Exec.createFiles.
  destruct (len _ =? 0); [apply accounts_ret_none|].
  apply accounts_prefixed.
  apply accounts_invoke_bind; [reflexivity| |].
  - intros mnt. cbv beta iota zeta. apply accounts_defer.
    + unfold LogOp.
      apply accounts_invoke_wrap; [reflexivity|intros msg; constructor|].
      apply accounts_defer.
      * unfold Exec.writeFiles. apply accounts_range_err. intros f Hf.
        unfold LogOp, util.WriteFile.
        apply accounts_invoke_wrap;
          [reflexivity|intros msg; now constructor|apply accounts_ret_none].
      * intros h. repeat constructor.
    + intros h. repeat constructor.
  - intros msg.
    exists (Errorf "failed to create temp directory: %v" [AErr (Errno msg)]).
    split; [reflexivity|constructor].
Qed.

Lemma accounts_createFilesystem (fs : Filesystem.t) :
  accounts (entry_blame fs) (unsupported_entry fs)
    (Exec.createFilesystem env fs).
Proof.
  unfold Exec.createFilesystem.
  apply accounts_check_same.
  - destruct (Filesystem.Initialize fs) eqn:Einit; [|apply accounts_ret_none].
    destruct (Exec.mkfsCommand fs) as [err|[mkfs args]] eqn:Em.
    + apply accounts_ret_some.
      destruct (mkfsCommand_unsupported fs err Em) as (Hb & He & ->).
      now repeat split.
    + unfold LogCmd.
      apply accounts_invoke_wrap;
        [reflexivity|intros msg; now apply eb_mkfs|apply accounts_ret_none].
  - apply (accounts_check (files_blame fs) _ no_quiet_error);
      [apply accounts_createFiles| | |apply accounts_ret_none].
    + intros c msg e Hb. now apply eb_files.
    + intros e [].
Qed.

Lemma accounts_createFilesystems (config : Config.t) :
  accounts (filesystems_blame config) (unsupported_in config)
    (Exec.createFilesystems env config).
Proof.
  unfold Exec.createFilesystems.
  destruct (len _ =? 0); [apply accounts_ret_none|].
  apply accounts_prefixed. cbv zeta. rewrite range_append_singleton.
  apply accounts_check_same.
  - apply accounts_waitOnDevices. intros msg. constructor.
  - apply accounts_range_err. intros fs Hfs.
    apply (accounts_weaken (entry_blame fs) _ (unsupported_entry fs));
      [apply accounts_createFilesystem| |].
    + intros c msg e Hb. now apply (fsb_entry config fs).
    + intros e He. now exists fs.
Qed.

(** X17.  The error a phase returns is the error of its first failed
    call, with the context the code gives it.  For each of the partition,
    RAID and filesystem phases, for the file population of one filesystem
    and for the unit phase: when the phase returns no error, none of its
    calls has failed, unmounts, removals of the temporary directory and
    closings apart; when it returns an error, its steps have a first failed
    call that is none of those, nothing but such cleanups is called after
    it, and the error returned is built from the message of that very call:
    the failed wait on the devices of the phase, the failed commit of a
    configured disk, the failed [mdadm] of a configured array with its
    arguments, the failed formatter of a configured filesystem with its
    path and arguments, the failed creation of the temporary directory, the
    failed mount of the filesystem's device with the directory, the failed
    write of one of the filesystem's files with its path (these three
    wrapped with the device by the filesystem phase), and for the unit
    phase the error of the call as it is.  The single error that comes
    without a failed call is the unsupported format of a configured
    filesystem that is to be initialised and is neither btrfs nor ext4; no
    call has failed before it either.  The failure of an unmount, of a
    removal or of a closing is never the error returned. *)
Theorem errors_returned (config : Config.t) (fs : Filesystem.t) :
  accounts (partition_blame config) no_quiet_error
    (Exec.createPartitions env config)
  /\ accounts (raid_blame config) no_quiet_error
       (Exec.createRaids env config)
  /\ accounts (files_blame fs) no_quiet_error (Exec.createFiles env fs)
  /\ accounts (filesystems_blame config) (unsupported_in config)
       (Exec.createFilesystems env config)
  /\ accounts bare_blame no_quiet_error
       (Exec.createUnits D env DestDir config).
Proof.
  split; [apply accounts_createPartitions|].
  split; [apply accounts_createRaids|].
  split; [apply accounts_createFiles|].
  split; [apply accounts_createFilesystems|].
  apply accounts_createUnits.
Qed.

End Errors.

(** ** What the filesystem phase calls *)

Section FilesystemCalls.
Variable env : Env.

(** X18.  Every call of the filesystem phase is one of: the wait on the
    devices of all entries; the formatter command of an entry whose
    [Initialize] flag is set (an entry without the flag is never
    formatted); the creation of a temporary directory; the mount of the
    device of an entry that has files, with the entry's format as type, no
    flag and no data; an unmount; a removal; the write of a file declared
    for an entry. *)
Theorem createFilesystems_calls_are_configured (config : Config.t) :
  confined (filesystem_call config) (Exec.createFilesystems env config).
Proof.
  unfold Exec.createFilesystems.
  destruct (len _ =? 0); [apply confined_ret|].
  apply confined_bind; [apply confined_act|]. intros _.
  apply confined_defer; [|apply confined_act]. cbv zeta.
  rewrite range_append_singleton.
  unfold check, Exec.waitOnDevices, check, LogOp.
  apply confined_bind.
  { confine. split; reflexivity. }
  intros [err|]; [apply confined_ret|].
  apply confined_range_err. intros fs Hin.
  unfold Exec.createFilesystem, check.
  apply confined_bind.
  - destruct (Filesystem.Initialize fs) eqn:Einit; [|apply confined_ret].
    destruct (Exec.mkfsCommand fs) as [err|[mkfs args]] eqn:Ecmd;
      [apply confined_ret|].
    unfold LogCmd. confine. exists fs. auto.
  - intros [err|]; [apply confined_ret|].
    apply confined_bind; [|intros [err|]; apply confined_ret].
    unfold Exec.createFiles.
    destruct (len (Filesystem.Files fs) =? 0) eqn:Elen;
      [apply confined_ret|].
    assert (Hne : Filesystem.Files fs <> []).
    { intros E. rewrite E in Elen. discriminate. }
    unfold check, LogOp, Exec.writeFiles, util.WriteFile, check.
    confine; try (split; reflexivity); try reflexivity.
    + exists fs. repeat split; auto.
    + apply confined_range_err. intros f Hf. confine.
      exists fs. split; assumption.
Qed.

End FilesystemCalls.
